(** * swing_trade_sim: the simulation-and-session engine of [src/App.jsx]

    A shallow embedding of the price process, the indicators, the candle
    aggregation and the game-session handlers of the React component [App],
    followed by the properties stated about them.

    Conventions of the embedding.
    - A JavaScript number is an IEEE double (binary64) in the source.  The
      component as a whole ([State], the handlers, the effects, the
      reachable states) is embedded over the exact reals ([R]); the
      arithmetic of the source is embedded a second time over binary64
      ([Binary64], on the primitive floats), with its rounding, underflow,
      infinities and [NaN].  A property claimed of the code and stated on
      the real embedding is written with the expressions of the source,
      parenthesised as the source computes them, and with comparisons, so
      that it does not rest on an identity of the reals that rounding breaks
      ([b * p / price * price = b * p], a running sum equal to a fresh sum,
      [exp] never 0); where such an identity was claimed, the value computed
      in binary64 is given.  The lemmas that do rest on one (the invariant
      [Inv] with its positive prices and its cash at least 0, [buy_spent],
      the cash 50 of the sample state [holding]) are about the real
      embedding and are marked so.
      Counters that only hold integers ([timeLeft], array indices,
      [Date.now()]) are [Z] or [nat].
    - [Math.random()] is an input: every function that draws takes the drawn
      values as arguments, in the order of the calls.
    - A [useState] cell is a field of [State]; a handler or an effect is a
      function [State -> State] that reads the cells of the render it closes
      over and returns the cells after the batched updates.  Every cell is
      written at most once per handler, so an updater [c => f c] is [f] of the
      cell read.
    - An array read that no execution performs out of range ([prices] is never
      empty) uses [0] as the default of [nth] over the reals, and [NaN], the
      number that [undefined] becomes, over binary64. *)

From Stdlib Require Import Floats String Reals Lra ZArith Lia Bool List.
From Equations Require Import Equations.
Import ListNotations.
Open Scope R_scope.

(** Decimal constants of the source denote the nearest double. *)
Set Warnings "-inexact-float".

(** ** Comparisons of numbers as booleans *)

Definition Rgtb (a b : R) : bool := if Rlt_dec b a then true else false.
Definition Rgeb (a b : R) : bool := if Rle_dec b a then true else false.
Definition Rltb (a b : R) : bool := if Rlt_dec a b then true else false.

(** [arr.slice(a, b)] for [0 <= a] and [0 <= b]. *)
Definition slice {A : Type} (arr : list A) (a b : nat) : list A :=
  firstn (b - a) (skipn a arr).

(** [arr.slice(-k)] for [k >= 1]: the last [k] elements, all when there are fewer. *)
Definition sliceLast {A : Type} (k : nat) (arr : list A) : list A :=
  skipn (length arr - k) arr.

(** [arr[arr.length - 1]] *)
Definition lastOf (arr : list R) : R := nth (length arr - 1) arr 0.

Definition inspect {A : Type} (a : A) : {b : A | a = b} := exist _ a eq_refl.

(** ** Helpers: the price process *)

Module PriceProcess.

(** [generatePrice(prev, mu, sigma)]; [u] is the value of [Math.random()]. *)
Definition generatePrice (prev mu sigma : R) (u : R) : R :=
  let dt := 1 in
  let epsilon := u * 2 - 1 in
  prev * exp ((mu - 0.5 * sigma ^ 2) * dt + sigma * sqrt dt * epsilon).

(** The body of [for (let i = 1; i < len; i++) arr.push(...)], [fuel]
    iterations from index [i]; the iteration at [i] makes draw number
    [i - 1]. *)
Fixpoint initLoop (fuel i : nat) (arr : list R) (mu sigma : R)
         (rnd : nat -> R) : list R :=
  match fuel with
  | O => arr
  | S fuel' =>
      initLoop fuel' (S i)
               (arr ++ [generatePrice (nth (i - 1) arr 0) mu sigma (rnd (i - 1)%nat)])
               mu sigma rnd
  end.

Definition generateInitialPrices (len : nat) (start mu sigma : R)
           (rnd : nat -> R) : list R :=
  initLoop (len - 1) 1 [start] mu sigma rnd.

(** [while (p.length < target) p.push(generatePrice(p[p.length - 1], mu, sigma))];
    the [k]-th iteration makes draw number [k]. *)
Fixpoint fillLoop (fuel : nat) (p : list R) (mu sigma : R)
         (rnd : nat -> R) : list R :=
  match fuel with
  | O => p
  | S fuel' =>
      fillLoop fuel' (p ++ [generatePrice (lastOf p) mu sigma (rnd 0%nat)])
               mu sigma (fun k => rnd (S k))
  end.

(** A series in which every element after the first is generated from the
    one before it, with the draw of its index. *)
Definition chained (mu sigma : R) (rnd : nat -> R) (arr : list R) : Prop :=
  forall j, (S j < length arr)%nat ->
    nth (S j) arr 0 = generatePrice (nth j arr 0) mu sigma (rnd j).

End PriceProcess.

(** ** Helpers: the loop of the simple moving average, over any numbers

    The loop of [sma] only adds, subtracts and divides.  It is written here
    once over an arbitrary type of numbers with these operations, of which
    nothing is assumed, so that what is proved of it holds of the loop over
    the reals and of the loop over binary64 alike. *)

Module Generic.

Section Numbers.

Context {N : Type}.
Variables (zero : N) (add sub div : N -> N -> N) (ofNat : nat -> N).
Variable undefined : N.

(** One iteration of the loop of [sma], at index [i], on the pair
    [(sum, out)]. *)
Definition sma_step (data : list N) (window : nat)
           (st : N * list N) (i : nat) : N * list N :=
  let sum := add (fst st) (nth i data undefined) in
  let sum := if (window <=? i)%nat
             then sub sum (nth (i - window) data undefined) else sum in
  let out := if (window - 1 <=? i)%nat
             then snd st ++ [div sum (ofNat window)] else snd st in
  (sum, out).

Definition sma (data : list N) (window : nat) : list N :=
  if (length data <? window)%nat then []
  else snd (fold_left (sma_step data window) (seq 0 (length data)) (zero, [])).

(** The value of the variable [sum] when the loop pushes its value number
    [i]: the first [window] elements added one after the other to 0, and
    then, for each later value, the next element added and the element that
    leaves the window subtracted. *)
Fixpoint running_sum (data : list N) (window i : nat) : N :=
  match i with
  | O => fold_left add (firstn window data) zero
  | S j => sub (add (running_sum data window j) (nth (j + window) data undefined))
               (nth j data undefined)
  end.

End Numbers.

End Generic.

(** ** Helpers: the simple moving average *)

Module IndicatorEngine.

(** One iteration of the loop of [sma], at index [i], on the pair
    [(sum, out)]. *)
Definition sma_step (data : list R) (window : nat)
           (st : R * list R) (i : nat) : R * list R :=
  let sum := fst st + nth i data 0 in
  let sum := if (window <=? i)%nat then sum - nth (i - window) data 0 else sum in
  let out := if (window - 1 <=? i)%nat
             then snd st ++ [sum / INR window] else snd st in
  (sum, out).

Definition sma (data : list R) (window : nat) : list R :=
  if (length data <? window)%nat then []
  else snd (fold_left (sma_step data window) (seq 0 (length data)) (0, [])).

(** The mean of the window that starts at [i], summed from scratch. *)
Definition window_mean (data : list R) (window i : nat) : R :=
  fold_left Rplus (slice data i (i + window)) 0 / INR window.

(** The variable [sum] of the loop of [sma] when it pushes its value number
    [i] (see [Generic.running_sum]):
    [running_sum data w 0 = ((0 + data[0]) + ...) + data[w - 1]] and
    [running_sum data w (S j) = (running_sum data w j + data[j + w]) - data[j]]. *)
Definition running_sum (data : list R) (window i : nat) : R :=
  Generic.running_sum 0 Rplus Rminus 0 data window i.

(** One iteration of the loop of [ema], at index [i], on [out]. *)
Definition ema_step (data : list R) (k : R) (out : list R) (i : nat) : list R :=
  out ++ [nth i data 0 * k + nth (i - 1) out 0 * (1 - k)].

Definition ema (data : list R) (window : nat) : list R :=
  if (length data =? 0)%nat then []
  else
    let k := 2 / (INR window + 1) in
    fold_left (ema_step data k) (seq 1 (length data - 1)) [nth 0 data 0].

End IndicatorEngine.

(** ** Helpers: candles *)

Module CandleAggregator.

Record Candle : Type := mkCandle { x : nat; o : R; h : R; l : R; c : R }.

(** The candle pushed for a non-empty slice [first :: rest] taken at index
    [i]: [{ x: i, o, h, l, c }] with [o = slice[0]],
    [c = slice[slice.length - 1]], [h = Math.max(...slice)] and
    [l = Math.min(...slice)]. *)
Definition candleOfSlice (i : nat) (first : R) (rest : list R) : Candle :=
  {| x := i;
     o := first;
     h := fold_left Rmax rest first;
     l := fold_left Rmin rest first;
     c := last rest first |}.

(** The loop of [buildCandles] from index [i]; it stops when [i] is past
    the end or when the slice is empty. *)
Equations? buildCandles_from (prices : list R) (group i : nat) : list Candle
  by wf (length prices - i)%nat lt :=
  buildCandles_from prices group i with lt_dec i (length prices) := {
    | right _ := [];
    | left Hi with inspect (slice prices i (i + group)) := {
        | exist _ [] _ := [];
        | exist _ (first :: rest) Hs :=
            candleOfSlice i first rest
              :: buildCandles_from prices group (i + group) } }.
Proof.
  destruct group as [|g]; [|lia].
  unfold slice in Hs. replace (i + 0 - i)%nat with 0%nat in Hs by lia.
  discriminate Hs.
Qed.

Definition buildCandles (prices : list R) (group : nat) : list Candle :=
  buildCandles_from prices group 0.

(** The [k]-th run of [bucketSize] ticks of a series, and what it means for
    a value to be the greatest or the least of a run. *)
Definition run (prices : list R) (bucketSize k : nat) : list R :=
  slice prices (k * bucketSize) (k * bucketSize + bucketSize).

Definition is_max (m : R) (xs : list R) : Prop :=
  In m xs /\ Forall (fun y => y <= m) xs.

Definition is_min (m : R) (xs : list R) : Prop :=
  In m xs /\ Forall (fun y => m <= y) xs.

End CandleAggregator.

(** ** The component: state cells, handlers and effects *)

Module GameSession.

Import PriceProcess.

(** *** Store items: [{ id, price, type }] of [THEMES], [CHART_MODELS] and
    [STATS_ITEMS] (labels, colours and icon styles are presentation). *)

Record Item : Type := mkItem { item_id : string; item_price : R; item_type : string }.

Definition THEMES : list Item :=
  [ mkItem "dark-default" 0 "theme"; mkItem "dark-purple" 5 "theme";
    mkItem "dark-green" 5 "theme"; mkItem "light-moss" 5 "theme" ].

Definition CHART_MODELS : list Item :=
  [ mkItem "line" 0 "chart"; mkItem "candle" 25 "chart" ].

Definition STATS_ITEMS : list Item :=
  [ mkItem "sma_short" 5 "stat"; mkItem "ema_mid" 5 "stat"; mkItem "sma_long" 5 "stat" ].

Definition SHOP_ITEMS : list Item :=
  filter (fun t => Rgtb (item_price t) 0) THEMES
    ++ filter (fun t => Rgtb (item_price t) 0) CHART_MODELS
    ++ STATS_ITEMS.

Definition LINE_INIT : nat := 10.
Definition CANDLE_INIT : nat := 50.

(** *** State cells *)

(** A floating text [{ id, x, y, text, color }]; the text
    [`-$${spent.toFixed(2)}`] is kept as its sign and the amount printed. *)
Record FloatingText : Type := mkFloatingText
  { ft_id : Z; ft_x : R; ft_y : R; ft_text : string * R; ft_color : string }.

Record State : Type := mkState
  { (* Game state *)
    prices : list R;
    balance : R;
    portfolio : R;
    timeLeft : Z;
    mu : R;
    sigma : R;
    running : bool;
    finished : bool;
    initialClick : bool;
    (* UI / effects *)
    floatingTexts : list FloatingText;
    purchasePercent : R;
    (* Popups *)
    showSettings : bool;
    showShop : bool;
    (* Economy / unlockables *)
    savedCoins : R;
    unlockedThemes : list string;
    selectedThemeId : string;
    unlockedCharts : list string;
    selectedChart : string;
    unlockedStats : list string;
    enabledStats : list string }.

(** The [useState] initialisers; [rnd] holds the draws of
    [generateInitialPrices]. *)
Definition initialState (rnd : nat -> R) : State :=
  {| prices := generateInitialPrices LINE_INIT 100 0.001 0.01 rnd;
     balance := 100;
     portfolio := 0;
     timeLeft := 60;
     mu := 0.001;
     sigma := 0.1;
     running := false;
     finished := false;
     initialClick := false;
     floatingTexts := [];
     purchasePercent := 50;
     showSettings := false;
     showShop := false;
     savedCoins := 0;
     unlockedThemes := ["dark-default"%string];
     selectedThemeId := "dark-default";
     unlockedCharts := ["line"%string];
     selectedChart := "line";
     unlockedStats := [];
     enabledStats := [] |}.

(** *** The setters of the cells *)

Definition setPrices (v : list R) (s : State) : State :=
  mkState v (balance s) (portfolio s) (timeLeft s) (mu s) (sigma s) (running s)
          (finished s) (initialClick s) (floatingTexts s) (purchasePercent s)
          (showSettings s) (showShop s) (savedCoins s) (unlockedThemes s)
          (selectedThemeId s) (unlockedCharts s) (selectedChart s)
          (unlockedStats s) (enabledStats s).

Definition setBalance (v : R) (s : State) : State :=
  mkState (prices s) v (portfolio s) (timeLeft s) (mu s) (sigma s) (running s)
          (finished s) (initialClick s) (floatingTexts s) (purchasePercent s)
          (showSettings s) (showShop s) (savedCoins s) (unlockedThemes s)
          (selectedThemeId s) (unlockedCharts s) (selectedChart s)
          (unlockedStats s) (enabledStats s).

Definition setPortfolio (v : R) (s : State) : State :=
  mkState (prices s) (balance s) v (timeLeft s) (mu s) (sigma s) (running s)
          (finished s) (initialClick s) (floatingTexts s) (purchasePercent s)
          (showSettings s) (showShop s) (savedCoins s) (unlockedThemes s)
          (selectedThemeId s) (unlockedCharts s) (selectedChart s)
          (unlockedStats s) (enabledStats s).

Definition setTimeLeft (v : Z) (s : State) : State :=
  mkState (prices s) (balance s) (portfolio s) v (mu s) (sigma s) (running s)
          (finished s) (initialClick s) (floatingTexts s) (purchasePercent s)
          (showSettings s) (showShop s) (savedCoins s) (unlockedThemes s)
          (selectedThemeId s) (unlockedCharts s) (selectedChart s)
          (unlockedStats s) (enabledStats s).

Definition setMu (v : R) (s : State) : State :=
  mkState (prices s) (balance s) (portfolio s) (timeLeft s) v (sigma s) (running s)
          (finished s) (initialClick s) (floatingTexts s) (purchasePercent s)
          (showSettings s) (showShop s) (savedCoins s) (unlockedThemes s)
          (selectedThemeId s) (unlockedCharts s) (selectedChart s)
          (unlockedStats s) (enabledStats s).

Definition setSigma (v : R) (s : State) : State :=
  mkState (prices s) (balance s) (portfolio s) (timeLeft s) (mu s) v (running s)
          (finished s) (initialClick s) (floatingTexts s) (purchasePercent s)
          (showSettings s) (showShop s) (savedCoins s) (unlockedThemes s)
          (selectedThemeId s) (unlockedCharts s) (selectedChart s)
          (unlockedStats s) (enabledStats s).

Definition setRunning (v : bool) (s : State) : State :=
  mkState (prices s) (balance s) (portfolio s) (timeLeft s) (mu s) (sigma s) v
          (finished s) (initialClick s) (floatingTexts s) (purchasePercent s)
          (showSettings s) (showShop s) (savedCoins s) (unlockedThemes s)
          (selectedThemeId s) (unlockedCharts s) (selectedChart s)
          (unlockedStats s) (enabledStats s).

Definition setFinished (v : bool) (s : State) : State :=
  mkState (prices s) (balance s) (portfolio s) (timeLeft s) (mu s) (sigma s) (running s)
          v (initialClick s) (floatingTexts s) (purchasePercent s)
          (showSettings s) (showShop s) (savedCoins s) (unlockedThemes s)
          (selectedThemeId s) (unlockedCharts s) (selectedChart s)
          (unlockedStats s) (enabledStats s).

Definition setInitialClick (v : bool) (s : State) : State :=
  mkState (prices s) (balance s) (portfolio s) (timeLeft s) (mu s) (sigma s) (running s)
          (finished s) v (floatingTexts s) (purchasePercent s)
          (showSettings s) (showShop s) (savedCoins s) (unlockedThemes s)
          (selectedThemeId s) (unlockedCharts s) (selectedChart s)
          (unlockedStats s) (enabledStats s).

Definition setFloatingTexts (v : list FloatingText) (s : State) : State :=
  mkState (prices s) (balance s) (portfolio s) (timeLeft s) (mu s) (sigma s) (running s)
          (finished s) (initialClick s) v (purchasePercent s)
          (showSettings s) (showShop s) (savedCoins s) (unlockedThemes s)
          (selectedThemeId s) (unlockedCharts s) (selectedChart s)
          (unlockedStats s) (enabledStats s).

Definition setPurchasePercent (v : R) (s : State) : State :=
  mkState (prices s) (balance s) (portfolio s) (timeLeft s) (mu s) (sigma s) (running s)
          (finished s) (initialClick s) (floatingTexts s) v
          (showSettings s) (showShop s) (savedCoins s) (unlockedThemes s)
          (selectedThemeId s) (unlockedCharts s) (selectedChart s)
          (unlockedStats s) (enabledStats s).

Definition setShowSettings (v : bool) (s : State) : State :=
  mkState (prices s) (balance s) (portfolio s) (timeLeft s) (mu s) (sigma s) (running s)
          (finished s) (initialClick s) (floatingTexts s) (purchasePercent s)
          v (showShop s) (savedCoins s) (unlockedThemes s)
          (selectedThemeId s) (unlockedCharts s) (selectedChart s)
          (unlockedStats s) (enabledStats s).

Definition setShowShop (v : bool) (s : State) : State :=
  mkState (prices s) (balance s) (portfolio s) (timeLeft s) (mu s) (sigma s) (running s)
          (finished s) (initialClick s) (floatingTexts s) (purchasePercent s)
          (showSettings s) v (savedCoins s) (unlockedThemes s)
          (selectedThemeId s) (unlockedCharts s) (selectedChart s)
          (unlockedStats s) (enabledStats s).

Definition setSavedCoins (v : R) (s : State) : State :=
  mkState (prices s) (balance s) (portfolio s) (timeLeft s) (mu s) (sigma s) (running s)
          (finished s) (initialClick s) (floatingTexts s) (purchasePercent s)
          (showSettings s) (showShop s) v (unlockedThemes s)
          (selectedThemeId s) (unlockedCharts s) (selectedChart s)
          (unlockedStats s) (enabledStats s).

Definition setUnlockedThemes (v : list string) (s : State) : State :=
  mkState (prices s) (balance s) (portfolio s) (timeLeft s) (mu s) (sigma s) (running s)
          (finished s) (initialClick s) (floatingTexts s) (purchasePercent s)
          (showSettings s) (showShop s) (savedCoins s) v
          (selectedThemeId s) (unlockedCharts s) (selectedChart s)
          (unlockedStats s) (enabledStats s).

Definition setSelectedThemeId (v : string) (s : State) : State :=
  mkState (prices s) (balance s) (portfolio s) (timeLeft s) (mu s) (sigma s) (running s)
          (finished s) (initialClick s) (floatingTexts s) (purchasePercent s)
          (showSettings s) (showShop s) (savedCoins s) (unlockedThemes s)
          v (unlockedCharts s) (selectedChart s)
          (unlockedStats s) (enabledStats s).

Definition setUnlockedCharts (v : list string) (s : State) : State :=
  mkState (prices s) (balance s) (portfolio s) (timeLeft s) (mu s) (sigma s) (running s)
          (finished s) (initialClick s) (floatingTexts s) (purchasePercent s)
          (showSettings s) (showShop s) (savedCoins s) (unlockedThemes s)
          (selectedThemeId s) v (selectedChart s)
          (unlockedStats s) (enabledStats s).

Definition setSelectedChart (v : string) (s : State) : State :=
  mkState (prices s) (balance s) (portfolio s) (timeLeft s) (mu s) (sigma s) (running s)
          (finished s) (initialClick s) (floatingTexts s) (purchasePercent s)
          (showSettings s) (showShop s) (savedCoins s) (unlockedThemes s)
          (selectedThemeId s) (unlockedCharts s) v
          (unlockedStats s) (enabledStats s).

Definition setUnlockedStats (v : list string) (s : State) : State :=
  mkState (prices s) (balance s) (portfolio s) (timeLeft s) (mu s) (sigma s) (running s)
          (finished s) (initialClick s) (floatingTexts s) (purchasePercent s)
          (showSettings s) (showShop s) (savedCoins s) (unlockedThemes s)
          (selectedThemeId s) (unlockedCharts s) (selectedChart s)
          v (enabledStats s).

Definition setEnabledStats (v : list string) (s : State) : State :=
  mkState (prices s) (balance s) (portfolio s) (timeLeft s) (mu s) (sigma s) (running s)
          (finished s) (initialClick s) (floatingTexts s) (purchasePercent s)
          (showSettings s) (showShop s) (savedCoins s) (unlockedThemes s)
          (selectedThemeId s) (unlockedCharts s) (selectedChart s)
          (unlockedStats s) v.

(** [arr.includes(id)] *)
Definition includes (arr : list string) (id : string) : bool :=
  existsb (String.eqb id) arr.

(** *** Price updates / drift / volatility *)

(** The four draws of one run of the interval callback. *)
Record TickDraws : Type := mkTickDraws
  { u_price : R;   (* in [generatePrice] *)
    u_mu : R;      (* in the updater of [setMu] *)
    u_shock : R;   (* in [Math.random() < 0.3] *)
    u_sigma : R    (* in [Math.random() / 25] *) }.

Definition maxPoints (s : State) : nat :=
  if (selectedChart s =? "candle")%string then 300%nat else 100%nat.

Definition priceTick (d : TickDraws) (s : State) : State :=
  let s1 :=
    setPrices
      (let prev := prices s in
       let next := generatePrice (lastOf prev) (mu s) (sigma s) (u_price d) in
       let updated := prev ++ [next] in
       sliceLast (maxPoints s) updated) s in
  let s2 := setMu (mu s + (u_mu d - 0.5) / 500) s1 in
  if Rltb (u_shock d) 0.3 then setSigma (u_sigma d / 25) s2 else s2.

(** The effect that grows the series when the candle chart is selected. *)
Definition ensureCandleData (rnd : nat -> R) (s : State) : State :=
  if (selectedChart s =? "candle")%string && (length (prices s) <? CANDLE_INIT)%nat
  then setPrices (fillLoop (CANDLE_INIT - length (prices s)) (prices s)
                           (mu s) (sigma s) rnd) s
  else s.

(** *** Timer *)

(** One run of the one-second interval, which exists only while [running]. *)
Definition countdownTick (s : State) : State :=
  if running s
  then setTimeLeft (if (timeLeft s >? 0)%Z then (timeLeft s - 1)%Z else 0%Z) s
  else s.

(** The effect "when timer hits 0, finish the game". *)
Definition finishEffect (s : State) : State :=
  if negb (running s) || (timeLeft s >? 0)%Z then s
  else
    let finalPrice := lastOf (prices s) in
    let earned := portfolio s * finalPrice in
    let newBalance := balance s + earned in
    let profitPct := (newBalance - 100) / 100 in
    let s1 := if Rgtb profitPct 0
              then setSavedCoins (savedCoins s + profitPct * 100) s else s in
    setFinished true (setRunning false (setPortfolio 0 (setBalance newBalance s1))).

(** *** Interactions *)

(** What [handleClick] reads of the event and of the page: the pointer
    position, the bounding rectangle of the container, and [Date.now()]. *)
Record ClickEvent : Type := mkClickEvent
  { clientX : R; clientY : R; bounds_left : R; bounds_width : R; now : Z }.

Definition createFloatingText (id : Z) (x y : R) (text : string * R)
           (color : string) (s : State) : State :=
  setFloatingTexts (floatingTexts s ++ [mkFloatingText id x y text color]) s.

(** The timeout set by [createFloatingText], one second later. *)
Definition expireFloatingText (id : Z) (s : State) : State :=
  setFloatingTexts (filter (fun t => negb (ft_id t =? id)%Z) (floatingTexts s)) s.

Definition handleClick (e : ClickEvent) (s : State) : State :=
  if showSettings s || showShop s || finished s then s
  else
    let clickX := clientX e - bounds_left e in
    let width := bounds_width e in
    let price := lastOf (prices s) in
    let x := clientX e in
    let y := clientY e in
    if negb (initialClick s) && Rgtb clickX (width / 2)
    then setTimeLeft 60 (setRunning true (setInitialClick true s))
    else if negb (running s) || negb (initialClick s) then s
    else if Rgtb clickX (width / 2)
    then
      if Rgeb (balance s) 10
      then
        let amount := (balance s * (purchasePercent s / 100)) / price in
        let spent := amount * price in
        createFloatingText (now e) x y ("-$"%string, spent) "red"
          (setPortfolio (portfolio s + amount) (setBalance (balance s - spent) s))
      else s
    else
      if Rgtb (portfolio s) 0
      then
        let earned := portfolio s * price in
        createFloatingText (now e) x y ("+$"%string, earned) "green"
          (setPortfolio 0 (setBalance (balance s + earned) s))
      else s.

Definition resetToHome (rnd : nat -> R) (s : State) : State :=
  let initLen := if (selectedChart s =? "candle")%string
                 then CANDLE_INIT else LINE_INIT in
  setPrices (generateInitialPrices initLen 100 0.001 0.01 rnd)
   (setInitialClick false
    (setFinished false
     (setRunning false
      (setSigma 0.01
       (setMu 0.001
        (setTimeLeft 60
         (setPortfolio 0
          (setBalance 100 s)))))))).

(** *** Shop logic *)

Definition handlePurchase (item : Item) (s : State) : State :=
  if (item_type item =? "theme")%string then
    if includes (unlockedThemes s) (item_id item) then s
    else if Rgeb (savedCoins s) (item_price item)
    then setUnlockedThemes (unlockedThemes s ++ [item_id item])
           (setSavedCoins (savedCoins s - item_price item) s)
    else s
  else if (item_type item =? "chart")%string then
    if includes (unlockedCharts s) (item_id item) then s
    else if Rgeb (savedCoins s) (item_price item)
    then setUnlockedCharts (unlockedCharts s ++ [item_id item])
           (setSavedCoins (savedCoins s - item_price item) s)
    else s
  else if (item_type item =? "stat")%string then
    if includes (unlockedStats s) (item_id item) then s
    else if Rgeb (savedCoins s) (item_price item)
    then setUnlockedStats (unlockedStats s ++ [item_id item])
           (setSavedCoins (savedCoins s - item_price item) s)
    else s
  else s.

Definition applyTheme (id : string) (s : State) : State :=
  if negb (includes (unlockedThemes s) id) then s
  else setSelectedThemeId id s.

Definition toggleStat (id : string) (s : State) : State :=
  if negb (includes (unlockedStats s) id) then s
  else setEnabledStats
         (if includes (enabledStats s) id
          then filter (fun st => negb (st =? id)%string) (enabledStats s)
          else enabledStats s ++ [id]) s.

(** [owned] as the shop popup computes it for an item. *)
Definition owned (item : Item) (s : State) : bool :=
  ((item_type item =? "theme")%string && includes (unlockedThemes s) (item_id item))
  || ((item_type item =? "chart")%string && includes (unlockedCharts s) (item_id item))
  || ((item_type item =? "stat")%string && includes (unlockedStats s) (item_id item)).

(** *** The session phase of a state *)

Inductive Phase : Type := WaitingToStart | Running | Finished.

(** The phase the three flags stand for: [finished] after the timer ran
    out, [running] between the start gesture and the finish, and neither
    before the start gesture. *)
Definition phase (s : State) : Phase :=
  if finished s then Finished
  else if running s && initialClick s then Running
  else WaitingToStart.

(** A click on the right half of the container. *)
Definition rightHalf (e : ClickEvent) : bool :=
  Rgtb (clientX e - bounds_left e) (bounds_width e / 2).

(** *** The states the component goes through *)

(** A value of [Math.random()]. *)
Definition unit_draw (u : R) : Prop := 0 <= u < 1.

(** A value of the range input [min=10 max=100 step=10]. *)
Definition slider_value (v : R) : Prop :=
  exists k : nat, (1 <= k <= 10)%nat /\ v = 10 * INR k.

Inductive reachable : State -> Prop :=
| reach_init rnd :
    (forall k, unit_draw (rnd k)) -> reachable (initialState rnd)
| reach_priceTick s d :
    reachable s ->
    unit_draw (u_price d) -> unit_draw (u_mu d) ->
    unit_draw (u_shock d) -> unit_draw (u_sigma d) ->
    reachable (priceTick d s)
| reach_ensureCandleData s rnd :
    reachable s -> (forall k, unit_draw (rnd k)) ->
    reachable (ensureCandleData rnd s)
| reach_countdownTick s :
    reachable s -> reachable (countdownTick s)
| reach_finishEffect s :
    reachable s -> reachable (finishEffect s)
| reach_handleClick s e :
    reachable s -> reachable (handleClick e s)
| reach_expireFloatingText s id :
    reachable s -> reachable (expireFloatingText id s)
| reach_resetToHome s rnd :
    reachable s -> (forall k, unit_draw (rnd k)) ->
    reachable (resetToHome rnd s)
| reach_handlePurchase s item :
    reachable s -> In item SHOP_ITEMS -> reachable (handlePurchase item s)
| reach_applyTheme s id :
    reachable s -> reachable (applyTheme id s)
| reach_toggleStat s id :
    reachable s -> reachable (toggleStat id s)
| reach_setSelectedChart s id :
    reachable s -> In id (unlockedCharts s) -> reachable (setSelectedChart id s)
| reach_setPurchasePercent s v :
    reachable s -> slider_value v -> reachable (setPurchasePercent v s)
| reach_setShowSettings s b :
    reachable s -> reachable (setShowSettings b s)
| reach_setShowShop s b :
    reachable s -> reachable (setShowShop b s).

(** *** Well-formed states *)

(** A series that is not empty and holds positive prices only. *)
Definition positive_series (ps : list R) : Prop :=
  (1 <= length ps)%nat /\ Forall (fun p => 0 < p) ps.

(** What every reachable state of the real embedding satisfies (over
    binary64 a price can underflow to 0 and the cash can fall below 0 by a
    rounding error, see [Binary64]). *)
Definition Inv (s : State) : Prop :=
  positive_series (prices s)
  /\ 0 <= balance s
  /\ 0 <= portfolio s
  /\ 10 <= purchasePercent s <= 100.

(** *** Sample inputs *)

Definition rnd0 : nat -> R := fun _ => 0.

(** Clicks on the right and on the left half of a container 400 wide. *)
Definition rightClick : ClickEvent := mkClickEvent 300 200 0 400 0.
Definition leftClick : ClickEvent := mkClickEvent 100 200 0 400 0.

(** After the start gesture on the initial state. *)
Definition started : State := handleClick rightClick (initialState rnd0).

(** The same with the shop popup opened. *)
Definition shopOpen : State := setShowShop true started.

(** After the start gesture and one buy. *)
Definition holding : State := handleClick rightClick started.

(** The initial state with the candle chart unlocked and selected. *)
Definition candleSelected : State :=
  setSelectedChart "candle"
    (setUnlockedCharts ["line"; "candle"]%string (initialState rnd0)).

(** A running session: cash 100, no shares, price 100, buy percentage 50. *)
Definition sampleRunning : State :=
  mkState [100] 100 0 60 0.001 0.01 true false true [] 50 false false 0
          ["dark-default"%string] "dark-default" ["line"%string] "line" [] [].

(** A running session whose timer is at 0: cash 0, one share, price 120. *)
Definition sampleTimeUp : State :=
  mkState [120] 0 1 0 0.001 0.01 true false true [] 50 false false 0
          ["dark-default"%string] "dark-default" ["line"%string] "line" [] [].

(** A finished session. *)
Definition sampleFinished : State := finishEffect sampleTimeUp.


End GameSession.

(** ** Derived data of a render *)

Module Render.

Import IndicatorEngine CandleAggregator GameSession.

(** [TABLE[id]] on a table keyed by the ids of its items; [None] is
    [undefined]. *)
Definition lookupItem (table : list Item) (id : string) : option Item :=
  find (fun t => (item_id t =? id)%string) table.

(** [const finalValue] and [const returnPct] of the render. *)
Definition finalValue (s : State) : R :=
  balance s + portfolio s * lastOf (prices s).


(** A dataset of the line chart, [{ data, borderColor, borderWidth,
    pointRadius }]; [None] in [ds_data] is [null]. *)
Record Dataset : Type := mkDataset
  { ds_data : list (option R);
    ds_borderColor : string;
    ds_borderWidth : R;
    ds_pointRadius : R }.

(** [Array(n).fill(null).concat(arr)] for [n >= 0]. *)
Definition padNull (n : nat) (arr : list R) : list (option R) :=
  repeat None n ++ map Some arr.

(** The memo [lineDatasets] as a function of its dependencies; [fg] is
    [selectedTheme.fg]. *)
Definition lineDatasets (prices smaShortArr emaArr smaLongArr : list R)
           (enabledStats : list string) (fg : string) : list Dataset :=
  let sets := [mkDataset (map Some prices) fg 2 0] in
  let sets :=
    if includes enabledStats "sma_short" && negb (length smaShortArr =? 0)%nat
    then sets ++ [mkDataset (padNull (length prices - length smaShortArr) smaShortArr)
                            "#3b82f6" 1.5 0]
    else sets in
  let sets :=
    if includes enabledStats "ema_mid" && negb (length emaArr =? 0)%nat
    then sets ++ [mkDataset (map Some emaArr) "#f59e0b" 1.5 0]
    else sets in
  let sets :=
    if includes enabledStats "sma_long" && negb (length smaLongArr =? 0)%nat
    then sets ++ [mkDataset (padNull (length prices - length smaLongArr) smaLongArr)
                            "#10b981" 1.5 0]
    else sets in
  sets.

(** The memos [candles], [smaShortArr], [smaLongArr] and [emaArr] of a
    state, and its [lineDatasets]. *)
Definition candles (s : State) : list Candle := buildCandles (prices s) 5.
Definition smaShortArr (s : State) : list R := sma (prices s) 5.
Definition smaLongArr (s : State) : list R := sma (prices s) 20.
Definition emaArr (s : State) : list R := ema (prices s) 12.

Definition lineDatasetsOf (s : State) (fg : string) : list Dataset :=
  lineDatasets (prices s) (smaShortArr s) (emaArr s) (smaLongArr s)
               (enabledStats s) fg.

End Render.

(** ** What the reachable states keep, besides [Inv] *)

Module Kept.

Import GameSession.

(** The flags, the timer and the regime. *)
Definition SessionInv (s : State) : Prop :=
  (initialClick s = false ->
     running s = false /\ finished s = false
     /\ balance s = 100 /\ portfolio s = 0 /\ timeLeft s = 60%Z)
  /\ (running s = true -> initialClick s = true /\ finished s = false)
  /\ (finished s = true ->
        initialClick s = true /\ running s = false
        /\ portfolio s = 0 /\ timeLeft s = 0%Z)
  /\ (initialClick s = true -> running s = true \/ finished s = true)
  /\ (0 <= timeLeft s <= 60)%Z
  /\ 0 <= sigma s <= 0.1
  /\ (1 <= length (prices s) <= 300)%nat.

(** Every id of [ids] is the id of an item of [table]. *)
Definition ids_of (table : list Item) (ids : list string) : Prop :=
  forall id, In id ids -> exists item, In item table /\ item_id item = id.

(** The coins and the unlockables. *)
Definition EconomyInv (s : State) : Prop :=
  0 <= savedCoins s
  /\ In "dark-default"%string (unlockedThemes s)
  /\ In "line"%string (unlockedCharts s)
  /\ In (selectedThemeId s) (unlockedThemes s)
  /\ In (selectedChart s) (unlockedCharts s)
  /\ incl (enabledStats s) (unlockedStats s)
  /\ ids_of THEMES (unlockedThemes s)
  /\ ids_of CHART_MODELS (unlockedCharts s)
  /\ ids_of STATS_ITEMS (unlockedStats s)
  /\ NoDup (unlockedThemes s) /\ NoDup (unlockedCharts s)
  /\ NoDup (unlockedStats s) /\ NoDup (enabledStats s).

End Kept.

(** ** The arithmetic of the source over binary64

    The functions of the source that compute with prices, cash and shares,
    on the primitive floats: every operation rounds to the nearest double as
    in JavaScript. *)

Module Binary64.

Local Open Scope float_scope.

(** [(int) x] of C for a finite [x]: the integer part, toward zero. *)
Definition truncate (x : float) : Z :=
  match Prim2SF x with
  | S754_finite s m e =>
      let v := if (0 <=? e)%Z then Z.shiftl (Zpos m) e
               else Z.shiftr (Zpos m) (- e) in
      if s then (- v)%Z else v
  | _ => 0%Z
  end.

(** [(double) k] for an integer [k]. *)
Definition of_Z (k : Z) : float :=
  if (k <? 0)%Z then - of_uint63 (Uint63.of_Z (- k))
  else of_uint63 (Uint63.of_Z k).

(** An array index or a window as a number. *)
Definition of_nat (n : nat) : float := of_Z (Z.of_nat n).

(** *** [Math.exp]

    [Math.exp] belongs to the JavaScript engine, not to this repository.
    ECMAScript fixes its value at [NaN], at the zeros and at the infinities
    and leaves the rest to the engine; the definition follows the algorithm
    of fdlibm's [e_exp.c], which V8 uses: below [u_threshold] the result is
    [twom1000 * twom1000], which underflows to [+0]; above [o_threshold] it
    is [+Infinity]; in between [x = k * ln2 + r] with [|r| <= 0.5 * ln2]
    and [exp x = 2^k * exp r], [exp r] from a rational approximation.  The
    tests of fdlibm on the high word of [x] are the comparisons of [|x|]
    with [0x1.62e43p-2] (half of [ln2]), [0x1.0a2b2p+0] (one and a half
    times [ln2]) and [2^-28]. *)

Definition o_threshold : float := 7.09782712893383973096e+02.
Definition u_threshold : float := -7.45133219101941108420e+02.
Definition ln2HI : float := 6.93147180369123816490e-01.
Definition ln2LO : float := 1.90821492927058770002e-10.
Definition invln2 : float := 1.44269504088896338700e+00.
Definition twom1000 : float := 0x1p-1000.
Definition P1 : float := 1.66666666666666019037e-01.
Definition P2 : float := -2.77777777770155933842e-03.
Definition P3 : float := 6.61375632143793436117e-05.
Definition P4 : float := -1.65339022054652515390e-06.
Definition P5 : float := 4.13813679705723846039e-08.

Definition Math_exp (x : float) : float :=
  if is_nan x then x + x
  else if x =? infinity then x
  else if x =? neg_infinity then 0
  else if o_threshold <? x then infinity
  else if x <? u_threshold then twom1000 * twom1000
  else
    let neg := x <? 0 in
    let ax := PrimFloat.abs x in
    if ax <? 0x1p-28 then 1 + x
    else
      let '(hi, lo, k) :=
        if ax <? 0x1.62e43p-2 then (x, 0, 0%Z)
        else if ax <? 0x1.0a2b2p+0
        then if neg then (x + ln2HI, - ln2LO, (-1)%Z)
             else (x - ln2HI, ln2LO, 1%Z)
        else
          let k := truncate (invln2 * x + (if neg then -0.5 else 0.5)) in
          let t := of_Z k in
          (x - t * ln2HI, t * ln2LO, k) in
      let r := if (k =? 0)%Z then x else hi - lo in
      let t := r * r in
      let c := r - t * (P1 + t * (P2 + t * (P3 + t * (P4 + t * P5)))) in
      if (k =? 0)%Z then 1 - ((r * c) / (c - 2) - r)
      else
        let y := 1 - ((lo - (r * c) / (2 - c)) - hi) in
        if (-1021 <=? k)%Z
        then if (k =? 1024)%Z then y * 2 * 0x1p1023 else y * Z.ldexp 1 k
        else y * Z.ldexp 1 (k + 1000) * twom1000.

(** *** [generatePrice(prev, mu, sigma)]; [u] is the value of
    [Math.random()], and [sigma ** 2] is the square [sigma * sigma]. *)
Definition generatePrice (prev mu sigma : float) (u : float) : float :=
  let dt := 1 in
  let epsilon := u * 2 - 1 in
  prev * Math_exp ((mu - 0.5 * (sigma * sigma)) * dt
                   + sigma * PrimFloat.sqrt dt * epsilon).

(** *** [sma(data, window)] and the reference that sums every window
    from scratch; [data[i]] out of range is [undefined], [NaN] as a
    number. *)
Definition sma_step (data : list float) (window : nat)
           (st : float * list float) (i : nat) : float * list float :=
  let sum := fst st + nth i data nan in
  let sum := if (window <=? i)%nat then sum - nth (i - window) data nan else sum in
  let out := if (window - 1 <=? i)%nat
             then snd st ++ [sum / of_nat window] else snd st in
  (sum, out).

Definition sma (data : list float) (window : nat) : list float :=
  if (length data <? window)%nat then []
  else snd (fold_left (sma_step data window) (seq 0 (length data)) (0, [])).

Definition window_mean (data : list float) (window i : nat) : float :=
  fold_left PrimFloat.add (slice data i (i + window)) 0 / of_nat window.

Definition sma_naive (data : list float) (window : nat) : list float :=
  if (length data <? window)%nat then []
  else map (window_mean data window) (seq 0 (length data - window + 1)).

Definition running_sum (data : list float) (window i : nat) : float :=
  Generic.running_sum 0 PrimFloat.add PrimFloat.sub nan data window i.

(** *** The arithmetic of [handleClick] on the cells [(balance, portfolio)]:
    the buy of lines 269-273 and the sell of lines 278-281, at the price
    [price]. *)
Definition buy (purchasePercent price : float) (cells : float * float)
  : float * float :=
  let '(balance, portfolio) := cells in
  if 10 <=? balance
  then
    let amount := (balance * (purchasePercent / 100)) / price in
    let spent := amount * price in
    (balance - spent, portfolio + amount)
  else cells.

Definition sell (price : float) (cells : float * float) : float * float :=
  let '(balance, portfolio) := cells in
  if 0 <? portfolio
  then
    let earned := portfolio * price in
    (balance + earned, 0)
  else cells.

End Binary64.

Import PriceProcess IndicatorEngine CandleAggregator GameSession.


(** * Properties *)

(** ** Comparisons *)

Lemma Rgtb_true_iff a b : Rgtb a b = true <-> b < a.
Proof.
  unfold Rgtb. destruct (Rlt_dec b a); split; intros;
    (discriminate || lra || reflexivity).
Qed.

Lemma Rgtb_false_iff a b : Rgtb a b = false <-> a <= b.
Proof.
  unfold Rgtb. destruct (Rlt_dec b a); split; intros;
    (discriminate || lra || reflexivity).
Qed.

Lemma Rgeb_true_iff a b : Rgeb a b = true <-> b <= a.
Proof.
  unfold Rgeb. destruct (Rle_dec b a); split; intros;
    (discriminate || lra || reflexivity).
Qed.

Lemma Rgeb_false_iff a b : Rgeb a b = false <-> a < b.
Proof.
  unfold Rgeb. destruct (Rle_dec b a); split; intros;
    (discriminate || lra || reflexivity).
Qed.

(** ** The price process *)

(** Over the reals an exponential is never 0, so the price stays positive;
    over binary64 it can underflow to 0. *)
Lemma generatePrice_pos prev mu sigma u :
  0 < prev -> 0 < generatePrice prev mu sigma u.
Proof.
  intros Hprev. unfold generatePrice.
  apply Rmult_lt_0_compat; [exact Hprev | apply exp_pos].
Qed.

(** C4, as stated, fails in binary64.  With drift 0 and volatility 40 the
    exponent [(0 - 0.5 * 40 ** 2) + 40 * epsilon] lies between -840 and
    -760 at every draw, [Math.exp] underflows to 0 there, and the price
    returned from 100 is 0, not a positive number: here at the least, the
    middle and the greatest draw. *)
Lemma generatePrice_underflows_to_zero :
  (Binary64.generatePrice 100 0 40 0 = 0
   /\ Binary64.generatePrice 100 0 40 0.5 = 0
   /\ Binary64.generatePrice 100 0 40 0x1.fffffffffffffp-1 = 0
   /\ (0 <? Binary64.generatePrice 100 0 40 0.5) = false)%float.
Proof. repeat split; vm_compute; reflexivity. Qed.

(** C4, amended.  For a draw [u] of [Math.random()] (so [0 <= u < 1]) the
    shock [epsilon = u * 2 - 1] lies in [[-1, 1)], [generatePrice prev mu
    sigma] is [prev * exp ((mu - 0.5 * sigma^2) + sigma * epsilon)], and for
    [prev > 0] the price returned is not negative, whatever the drift and
    the volatility.  (It is 0 where the exponential underflows.) *)
Theorem generatePrice_formula_nonneg (prev mu sigma u : R) :
  0 <= u < 1 -> 0 < prev ->
  let epsilon := u * 2 - 1 in
  -1 <= epsilon < 1
  /\ generatePrice prev mu sigma u
     = prev * exp ((mu - 0.5 * sigma ^ 2) + sigma * epsilon)
  /\ 0 <= generatePrice prev mu sigma u.
Proof.
  intros Hu Hprev epsilon. split; [unfold epsilon; lra|]. split.
  - unfold generatePrice. cbv zeta. rewrite sqrt_1. fold epsilon.
    f_equal. f_equal. ring.
  - left. apply generatePrice_pos. exact Hprev.
Qed.

Lemma generatePrice_formula_nonneg_witness :
  0 <= 0.5 < 1 /\ 0 < 100
  /\ 0 <= generatePrice 100 0.001 0.01 0.5.
Proof.
  assert (Hu : 0 <= 0.5 < 1) by lra.
  assert (Hprev : 0 < 100) by lra.
  split; [exact Hu|]. split; [exact Hprev|].
  exact (proj2 (proj2 (generatePrice_formula_nonneg 100 0.001 0.01 0.5 Hu Hprev))).
Defined.

(** The same step in binary64, at the seeding drift and volatility. *)
Example generatePrice_binary64_example :
  (Binary64.generatePrice 100 0.001 0.01 0.5 = 100.09504513929298)%float.
Proof. vm_compute. reflexivity. Qed.

Lemma nth_pos (ps : list R) k :
  Forall (fun p => 0 < p) ps -> (k < length ps)%nat -> 0 < nth k ps 0.
Proof.
  intros Hall Hk. rewrite Forall_forall in Hall. apply Hall, nth_In, Hk.
Qed.

Lemma lastOf_pos ps : positive_series ps -> 0 < lastOf ps.
Proof.
  intros [Hlen Hall]. unfold lastOf. apply nth_pos; [exact Hall | lia].
Qed.

Lemma positive_series_snoc ps p :
  positive_series ps -> 0 < p -> positive_series (ps ++ [p]).
Proof.
  intros [Hlen Hall] Hp. split.
  - rewrite length_app. simpl. lia.
  - apply Forall_app. split; [exact Hall | constructor; [exact Hp | constructor]].
Qed.

Lemma initLoop_length fuel : forall i arr mu sigma rnd,
  length (initLoop fuel i arr mu sigma rnd) = (length arr + fuel)%nat.
Proof.
  induction fuel as [|fuel IH]; intros i arr mu sigma rnd; simpl; [lia|].
  rewrite IH, length_app. simpl. lia.
Qed.

Lemma initLoop_head fuel : forall i arr mu sigma rnd,
  (1 <= length arr)%nat ->
  nth 0 (initLoop fuel i arr mu sigma rnd) 0 = nth 0 arr 0.
Proof.
  induction fuel as [|fuel IH]; intros i arr mu sigma rnd Hlen; simpl; [reflexivity|].
  rewrite IH by (rewrite length_app; simpl; lia).
  apply app_nth1. lia.
Qed.

Lemma initLoop_positive fuel : forall i arr mu sigma rnd,
  i = length arr -> positive_series arr ->
  positive_series (initLoop fuel i arr mu sigma rnd).
Proof.
  induction fuel as [|fuel IH]; intros i arr mu sigma rnd Hi Hpos; simpl; [exact Hpos|].
  apply IH.
  - rewrite length_app. simpl. lia.
  - apply positive_series_snoc; [exact Hpos|].
    apply generatePrice_pos. destruct Hpos as [Hlen Hall].
    apply nth_pos; [exact Hall | lia].
Qed.

Lemma generateInitialPrices_length len start mu sigma rnd :
  length (generateInitialPrices len start mu sigma rnd) = Nat.max 1 len.
Proof.
  unfold generateInitialPrices. rewrite initLoop_length. cbn [length]. lia.
Qed.

Lemma generateInitialPrices_head len start mu sigma rnd :
  nth 0 (generateInitialPrices len start mu sigma rnd) 0 = start.
Proof.
  unfold generateInitialPrices. rewrite initLoop_head; [reflexivity | simpl; lia].
Qed.

Lemma generateInitialPrices_positive len start mu sigma rnd :
  0 < start -> positive_series (generateInitialPrices len start mu sigma rnd).
Proof.
  intros Hs. unfold generateInitialPrices. apply initLoop_positive; [reflexivity|].
  split; [simpl; lia | constructor; [exact Hs | constructor]].
Qed.

Lemma fillLoop_positive fuel : forall p mu sigma rnd,
  positive_series p -> positive_series (fillLoop fuel p mu sigma rnd).
Proof.
  induction fuel as [|fuel IH]; intros p mu sigma rnd Hpos; simpl; [exact Hpos|].
  apply IH, positive_series_snoc; [exact Hpos|].
  apply generatePrice_pos, lastOf_pos, Hpos.
Qed.

Lemma sliceLast_positive k ps :
  (1 <= k)%nat -> positive_series ps -> positive_series (sliceLast k ps).
Proof.
  intros Hk [Hlen Hall]. unfold sliceLast. split.
  - rewrite length_skipn. lia.
  - rewrite <- (firstn_skipn (length ps - k) ps) in Hall.
    apply Forall_app in Hall. apply Hall.
Qed.

(** ** The simple moving average *)

Lemma slice_as_map (data : list R) i w :
  (i + w <= length data)%nat ->
  slice data i (i + w) = map (fun j => nth j data 0) (seq i w).
Proof.
  unfold slice. replace (i + w - i)%nat with w by lia.
  revert i w. induction data as [|d data IH]; intros i w Hlen.
  - simpl in Hlen. assert (i = 0%nat) by lia. assert (w = 0%nat) by lia.
    subst. reflexivity.
  - destruct i as [|i].
    + simpl skipn. destruct w as [|w]; [reflexivity|].
      simpl. f_equal. simpl in Hlen.
      specialize (IH 0%nat w ltac:(simpl; lia)). simpl in IH. rewrite IH.
      rewrite <- seq_shift, map_map. reflexivity.
    + simpl skipn. simpl in Hlen. rewrite IH by lia.
      rewrite <- seq_shift, map_map. reflexivity.
Qed.

(** *** The loop over any numbers *)

Section GenericLoop.

Context {N : Type}.
Variables (zero : N) (add sub div : N -> N -> N) (ofNat : nat -> N).
Variable undefined : N.

Let step := Generic.sma_step add sub div ofNat undefined.
Let rsum := Generic.running_sum zero add sub undefined.

Lemma firstn_snoc_nth (data : list N) k :
  (k < length data)%nat ->
  firstn (S k) data = firstn k data ++ [nth k data undefined].
Proof.
  revert k. induction data as [|d data IH]; intros k Hk; [simpl in Hk; lia|].
  destruct k as [|k]; [reflexivity|].
  simpl in Hk. rewrite (firstn_cons (S k)), (firstn_cons k), IH by lia.
  reflexivity.
Qed.

(** Before the first value is pushed the loop has added the elements read
    so far to 0, one after the other. *)
Lemma generic_sma_loop_filling (data : list N) w k :
  (k < w)%nat -> (k <= length data)%nat ->
  fold_left (step data w) (seq 0 k) (zero, [])
  = (fold_left add (firstn k data) zero, []).
Proof.
  intros Hkw. induction k as [|k IH]; intros Hk; [reflexivity|].
  rewrite seq_S, fold_left_app, IH by lia. cbn [fold_left Nat.add].
  unfold step, Generic.sma_step. cbn [fst snd].
  replace (w <=? k)%nat with false by (symmetry; apply Nat.leb_gt; lia).
  replace (w - 1 <=? k)%nat with false by (symmetry; apply Nat.leb_gt; lia).
  rewrite firstn_snoc_nth by lia. rewrite fold_left_app. reflexivity.
Qed.

(** From the first value on, the loop holds the running sum of the value
    pushed last, and has pushed every running sum so far divided by the
    window.  No law of arithmetic is used. *)
Lemma generic_sma_loop_sliding (data : list N) w m :
  (1 <= w)%nat -> (w + m <= length data)%nat ->
  fold_left (step data w) (seq 0 (w + m)) (zero, [])
  = (rsum data w m,
     map (fun i => div (rsum data w i) (ofNat w)) (seq 0 (S m))).
Proof.
  intros Hw. induction m as [|m IH]; intros Hlen.
  - rewrite Nat.add_0_r. destruct w as [|w]; [lia|].
    rewrite seq_S, fold_left_app, generic_sma_loop_filling by lia.
    cbn [fold_left Nat.add]. unfold step, Generic.sma_step. cbn [fst snd].
    replace (S w <=? w)%nat with false by (symmetry; apply Nat.leb_gt; lia).
    replace (S w - 1 <=? w)%nat with true by (symmetry; apply Nat.leb_le; lia).
    unfold rsum. cbn [Generic.running_sum seq map app].
    rewrite firstn_snoc_nth by lia. rewrite fold_left_app. reflexivity.
  - replace (w + S m)%nat with (S (w + m)) by lia.
    rewrite seq_S, fold_left_app, IH by lia.
    cbn [fold_left Nat.add]. unfold step, Generic.sma_step. cbn [fst snd].
    replace (w <=? w + m)%nat with true by (symmetry; apply Nat.leb_le; lia).
    replace (w - 1 <=? w + m)%nat with true by (symmetry; apply Nat.leb_le; lia).
    replace (w + m - w)%nat with m by lia.
    rewrite (seq_S (S m) 0), map_app. cbn [map Nat.add].
    unfold rsum. cbn [Generic.running_sum].
    replace (m + w)%nat with (w + m)%nat by lia. reflexivity.
Qed.

(** What [sma] returns, over any numbers. *)
Lemma generic_sma_values (data : list N) w :
  (1 <= w)%nat ->
  ((length data < w)%nat ->
     Generic.sma zero add sub div ofNat undefined data w = [])
  /\ ((w <= length data)%nat ->
      Generic.sma zero add sub div ofNat undefined data w
      = map (fun i => div (rsum data w i) (ofNat w))
            (seq 0 (length data - w + 1))).
Proof.
  intros Hw. unfold Generic.sma. split.
  - intros Hlt. replace (length data <? w)%nat with true
      by (symmetry; apply Nat.ltb_lt; exact Hlt). reflexivity.
  - intros Hge. replace (length data <? w)%nat with false
      by (symmetry; apply Nat.ltb_ge; exact Hge).
    replace (length data) with (w + (length data - w))%nat at 1 by lia.
    fold step. rewrite generic_sma_loop_sliding by lia. cbn [snd].
    replace (S (length data - w)) with (length data - w + 1)%nat by lia.
    reflexivity.
Qed.

End GenericLoop.

(** The loop over the reals and the loop over binary64 are the loop over
    any numbers, at their operations. *)
Lemma sma_is_generic (data : list R) (window : nat) :
  sma data window = Generic.sma 0 Rplus Rminus Rdiv INR 0 data window.
Proof. reflexivity. Qed.

Lemma Binary64_sma_is_generic (data : list float) (window : nat) :
  Binary64.sma data window
  = Generic.sma 0%float PrimFloat.add PrimFloat.sub PrimFloat.div
                Binary64.of_nat nan data window.
Proof. reflexivity. Qed.

Lemma nth_map_seq {A : Type} (f : nat -> A) (n i : nat) (d : A) :
  (i < n)%nat -> nth i (map f (seq 0 n)) d = f i.
Proof.
  intros Hi. rewrite nth_indep with (d' := f 0%nat)
    by (rewrite length_map, length_seq; exact Hi).
  rewrite map_nth, seq_nth by exact Hi. reflexivity.
Qed.

Lemma sma_by_running_sum (data : list R) (window : nat) :
  (1 <= window <= length data)%nat ->
  sma data window
  = map (fun i => running_sum data window i / INR window)
        (seq 0 (length data - window + 1)).
Proof.
  intros [Hw Hlen]. rewrite sma_is_generic.
  apply (generic_sma_values 0 Rplus Rminus Rdiv INR 0 data window Hw). exact Hlen.
Qed.

(** C5, as stated, fails in binary64.  On the series 0.1, 0.2, 0.3, 0.4
    with window 2 the running sum gives 0.25000000000000006 for the second
    window and 0.3500000000000001 for the third, while summing each window
    from scratch gives 0.25 and 0.35: the running sum carries the rounding
    of the sums before it. *)
Lemma sma_differs_from_naive :
  (Binary64.sma [0.1; 0.2; 0.3; 0.4] 2
   = [0.15000000000000002; 0.25000000000000006; 0.3500000000000001]
   /\ Binary64.sma_naive [0.1; 0.2; 0.3; 0.4] 2
      = [0.15000000000000002; 0.25; 0.35]
   /\ (nth 1 (Binary64.sma [0.1; 0.2; 0.3; 0.4] 2) nan
         =? nth 1 (Binary64.sma_naive [0.1; 0.2; 0.3; 0.4] 2) nan) = false)%float.
Proof. split; [|split]; vm_compute; reflexivity. Qed.

(** C5, amended.  For a window of at least 1, over the reals and over
    binary64 alike, [sma] is the empty sequence on a series shorter than the
    window; otherwise it has [length - window + 1] values, the first is the
    mean of the first window summed from scratch, and the [i]-th is the
    running sum of the loop at that step divided by the window, where the
    running sum starts as the first [window] elements added one after the
    other to 0 and then, at each step, has the next element added and the
    element leaving the window subtracted. *)
Theorem sma_running_sum (window : nat) :
  (1 <= window)%nat ->
  (forall data : list R,
     ((length data < window)%nat -> sma data window = [])
     /\ ((window <= length data)%nat ->
         length (sma data window) = (length data - window + 1)%nat
         /\ nth 0 (sma data window) 0 = window_mean data window 0
         /\ forall i, (i < length data - window + 1)%nat ->
              nth i (sma data window) 0 = running_sum data window i / INR window))
  /\ (forall data : list float,
        ((length data < window)%nat -> Binary64.sma data window = [])
        /\ ((window <= length data)%nat ->
            length (Binary64.sma data window) = (length data - window + 1)%nat
            /\ nth 0 (Binary64.sma data window) nan
               = Binary64.window_mean data window 0
            /\ forall i, (i < length data - window + 1)%nat ->
                 nth i (Binary64.sma data window) nan
                 = (Binary64.running_sum data window i
                    / Binary64.of_nat window)%float)).
Proof.
  intros Hw. split; intros data.
  - rewrite sma_is_generic.
    destruct (generic_sma_values 0 Rplus Rminus Rdiv INR 0 data window Hw)
      as [Hshort Hlong].
    split; [exact Hshort|]. intros Hge. rewrite (Hlong Hge).
    split; [rewrite length_map, length_seq; reflexivity|]. split.
    + rewrite nth_map_seq by lia. unfold window_mean, slice. cbn [Nat.add skipn].
      rewrite Nat.sub_0_r. reflexivity.
    + intros i Hi. rewrite nth_map_seq by exact Hi. reflexivity.
  - rewrite Binary64_sma_is_generic.
    destruct (generic_sma_values 0%float PrimFloat.add PrimFloat.sub PrimFloat.div
                Binary64.of_nat nan data window Hw) as [Hshort Hlong].
    split; [exact Hshort|]. intros Hge. rewrite (Hlong Hge).
    split; [rewrite length_map, length_seq; reflexivity|]. split.
    + rewrite nth_map_seq by lia. unfold Binary64.window_mean, slice.
      cbn [Nat.add skipn]. rewrite Nat.sub_0_r. reflexivity.
    + intros i Hi. rewrite nth_map_seq by exact Hi. reflexivity.
Qed.

Lemma sma_running_sum_witness :
  (1 <= 2)%nat
  /\ length (sma [1; 2; 4; 8] 2) = 3%nat
  /\ length (Binary64.sma [0.1; 0.2; 0.3; 0.4]%float 2) = 3%nat.
Proof.
  assert (Hw : (1 <= 2)%nat) by lia.
  split; [exact Hw|].
  destruct (sma_running_sum 2 Hw) as [Hreal Hfloat].
  split.
  - exact (proj1 (proj2 (Hreal [1; 2; 4; 8]) ltac:(simpl; lia))).
  - exact (proj1 (proj2 (Hfloat [0.1; 0.2; 0.3; 0.4]%float) ltac:(simpl; lia))).
Defined.

(** The loop on a series of four values and a window of two. *)
Example sma_example : sma [1; 2; 4; 8] 2 = [3 / 2; 3; 6].
Proof.
  unfold sma, sma_step. simpl.
  repeat (f_equal; try lra).
Qed.

(** ** Candles *)

Lemma slice_length {A : Type} (arr : list A) i g :
  length (slice arr i (i + g)) = Nat.min g (length arr - i).
Proof.
  unfold slice. replace (i + g - i)%nat with g by lia.
  rewrite length_firstn, length_skipn. reflexivity.
Qed.

Lemma slice_nonempty {A : Type} (arr : list A) i g :
  (i < length arr)%nat -> (1 <= g)%nat -> slice arr i (i + g) <> [].
Proof.
  intros Hi Hg Hnil. apply (f_equal (@length A)) in Hnil.
  rewrite slice_length in Hnil. simpl in Hnil. lia.
Qed.

Lemma firstn_plus {A : Type} (arr : list A) a b :
  firstn (a + b) arr = firstn a arr ++ firstn b (skipn a arr).
Proof.
  revert arr. induction a as [|a IH]; intros arr; [reflexivity|].
  destruct arr as [|y arr]; simpl.
  - rewrite firstn_nil. reflexivity.
  - rewrite IH. reflexivity.
Qed.

(** The first [m] runs, one after the other, are the first [m * b] ticks. *)
Lemma concat_runs series b m :
  concat (map (run series b) (seq 0 m)) = firstn (m * b) series.
Proof.
  induction m as [|m IH]; [reflexivity|].
  rewrite seq_S, map_app, concat_app, IH. simpl.
  rewrite app_nil_r. unfold run, slice.
  replace (m * b + b - m * b)%nat with b by lia.
  replace (b + m * b)%nat with (m * b + b)%nat by lia.
  symmetry. apply firstn_plus.
Qed.

Lemma Rmax_cases a b : Rmax a b = a \/ Rmax a b = b.
Proof. unfold Rmax. destruct (Rle_dec a b); auto. Qed.

Lemma Rmin_cases a b : Rmin a b = a \/ Rmin a b = b.
Proof. unfold Rmin. destruct (Rle_dec a b); auto. Qed.

Lemma fold_left_Rmax_is_max rest : forall first,
  is_max (fold_left Rmax rest first) (first :: rest).
Proof.
  induction rest as [|y rest IH]; intros first; simpl.
  - split; [left; reflexivity | constructor; [lra | constructor]].
  - destruct (IH (Rmax first y)) as [Hin Hall].
    apply Forall_inv in Hall as Hhd. apply Forall_inv_tail in Hall.
    split.
    + destruct Hin as [Heq|Hin]; [|right; right; exact Hin].
      rewrite <- Heq. destruct (Rmax_cases first y) as [Hc|Hc]; rewrite Hc; simpl; auto.
    + pose proof (Rmax_l first y). pose proof (Rmax_r first y).
      constructor; [lra|]. constructor; [lra | exact Hall].
Qed.

Lemma fold_left_Rmin_is_min rest : forall first,
  is_min (fold_left Rmin rest first) (first :: rest).
Proof.
  induction rest as [|y rest IH]; intros first; simpl.
  - split; [left; reflexivity | constructor; [lra | constructor]].
  - destruct (IH (Rmin first y)) as [Hin Hall].
    apply Forall_inv in Hall as Hhd. apply Forall_inv_tail in Hall.
    split.
    + destruct Hin as [Heq|Hin]; [|right; right; exact Hin].
      rewrite <- Heq. destruct (Rmin_cases first y) as [Hc|Hc]; rewrite Hc; simpl; auto.
    + pose proof (Rmin_l first y). pose proof (Rmin_r first y).
      constructor; [lra|]. constructor; [lra | exact Hall].
Qed.

Lemma last_cons_default (first : R) rest d :
  last (first :: rest) d = last rest first.
Proof.
  destruct rest as [|y rest]; [reflexivity|].
  destruct (exists_last (l := y :: rest) ltac:(discriminate)) as (front & z & E).
  rewrite E. rewrite app_comm_cons. rewrite !last_last. reflexivity.
Qed.

Lemma last_In (first : R) rest : In (last rest first) (first :: rest).
Proof.
  rewrite <- (last_cons_default first rest 0).
  destruct (exists_last (l := first :: rest) ltac:(discriminate)) as (front & z & E).
  rewrite E, last_last. apply in_or_app. right. left. reflexivity.
Qed.

(** One turn of the loop of [buildCandles]. *)
Lemma buildCandles_from_unfold series group i :
  buildCandles_from series group i =
  if lt_dec i (length series) then
    match slice series i (i + group) with
    | [] => []
    | first :: rest =>
        candleOfSlice i first rest :: buildCandles_from series group (i + group)
    end
  else [].
Proof.
  funelim (buildCandles_from series group i).
  - rewrite Heq. reflexivity.
  - rewrite Heq. rewrite e. reflexivity.
  - rewrite Heq. rewrite Hs. reflexivity.
Qed.

(** The candles built from [i] reach the end of the series, and each of
    them starts inside it. *)
Lemma buildCandles_from_count series group i :
  (1 <= group)%nat ->
  let m := length (buildCandles_from series group i) in
  (length series <= i + m * group)%nat
  /\ forall k, (k < m)%nat -> (i + k * group < length series)%nat.
Proof.
  funelim (buildCandles_from series group i); intros Hg; simpl.
  - split; [lia | intros k Hk; lia].
  - exfalso.
    match goal with
    | Hnil : slice ?arr ?j (?j + ?g) = [] |- _ =>
        apply (slice_nonempty arr j g); assumption
    end.
  - destruct (H Hg) as [Hcover Hstart]. split; [lia|].
    intros [|k] Hk; [lia|].
    specialize (Hstart k ltac:(lia)). lia.
Qed.

Lemma buildCandles_from_nth series group d k : forall i,
  (k < length (buildCandles_from series group i))%nat ->
  exists first rest,
    slice series (i + k * group) (i + k * group + group) = first :: rest
    /\ nth k (buildCandles_from series group i) d
       = candleOfSlice (i + k * group) first rest.
Proof.
  induction k as [|k IH]; intros i;
    rewrite (buildCandles_from_unfold series group i);
    destruct (lt_dec i (length series)) as [Hi|Hi]; simpl; try lia;
    destruct (slice series i (i + group)) as [|first rest] eqn:Hs;
    simpl; try lia; intros Hk.
  - exists first, rest. rewrite Nat.add_0_r. split; [exact Hs | reflexivity].
  - destruct (IH (i + group)%nat ltac:(lia)) as (f & r & Hsl & Hnth).
    exists f, r.
    replace (i + (group + k * group))%nat with (i + group + k * group)%nat by lia.
    split; assumption.
Qed.

(** C6. For a bucket size of at least 1 the candles stand for the runs
    [run 0], [run 1], ... of the series: the runs put end to end are the
    series, no run is empty or longer than the bucket size and only the last
    may be shorter; the [k]-th candle has the offset [k * bucketSize] of its
    run as [x], the first element as [o], the last as [c], the greatest as
    [h] and the least as [l]; and in every candle [h] is at least [o], [c]
    and [l], and [l] is at most [o], [c] and [h]. *)
Theorem buildCandles_partition (series : list R) (bucketSize : nat) :
  (1 <= bucketSize)%nat ->
  let cs := buildCandles series bucketSize in
  concat (map (run series bucketSize) (seq 0 (length cs))) = series
  /\ (forall k, (k < length cs)%nat ->
        run series bucketSize k <> []
        /\ (length (run series bucketSize k) <= bucketSize)%nat
        /\ ((S k < length cs)%nat -> length (run series bucketSize k) = bucketSize))
  /\ (forall k, (k < length cs)%nat ->
        let cd := nth k cs (mkCandle 0 0 0 0 0) in
        x cd = (k * bucketSize)%nat
        /\ hd_error (run series bucketSize k) = Some (o cd)
        /\ last (run series bucketSize k) 0 = c cd
        /\ is_max (h cd) (run series bucketSize k)
        /\ is_min (l cd) (run series bucketSize k))
  /\ Forall (fun cd => h cd >= o cd /\ h cd >= c cd /\ h cd >= l cd
                       /\ l cd <= o cd /\ l cd <= c cd /\ l cd <= h cd) cs.
Proof.
  intros Hb cs.
  destruct (buildCandles_from_count series bucketSize 0 Hb) as [Hcover Hstart].
  fold (buildCandles series bucketSize) in Hcover, Hstart. fold cs in Hcover, Hstart.
  simpl in Hcover, Hstart.
  assert (Hnth : forall k, (k < length cs)%nat ->
            exists first rest, run series bucketSize k = first :: rest
              /\ nth k cs (mkCandle 0 0 0 0 0)
                 = candleOfSlice (k * bucketSize) first rest).
  { intros k Hk. exact (buildCandles_from_nth series bucketSize _ k 0%nat Hk). }
  split; [|split; [|split]].
  - rewrite concat_runs. apply firstn_all2. exact Hcover.
  - intros k Hk. pose proof (Hstart k Hk) as Hk0. unfold run. split; [|split].
    + apply slice_nonempty; assumption.
    + rewrite slice_length. lia.
    + intros HSk. pose proof (Hstart (S k) HSk) as Hk1.
      rewrite slice_length. simpl in Hk1. lia.
  - intros k Hk. destruct (Hnth k Hk) as (first & rest & Hrun & Hcd).
    cbv zeta. rewrite Hcd, Hrun. simpl.
    split; [reflexivity|]. split; [reflexivity|].
    split; [apply (last_cons_default first rest 0)|].
    split; [apply fold_left_Rmax_is_max | apply fold_left_Rmin_is_min].
  - apply Forall_forall. intros cd Hin.
    destruct (In_nth _ _ (mkCandle 0 0 0 0 0) Hin) as (k & Hk & Hcd).
    destruct (Hnth k Hk) as (first & rest & _ & Hcd').
    rewrite <- Hcd, Hcd'. simpl.
    destruct (fold_left_Rmax_is_max rest first) as [_ Hmax].
    destruct (fold_left_Rmin_is_min rest first) as [Hminin Hmin].
    rewrite Forall_forall in Hmax, Hmin.
    pose proof (Hmax first (or_introl eq_refl)).
    pose proof (Hmin first (or_introl eq_refl)).
    pose proof (Hmax _ (last_In first rest)).
    pose proof (Hmin _ (last_In first rest)).
    pose proof (Hmax _ Hminin).
    repeat split; lra.
Qed.

Lemma buildCandles_partition_witness :
  (1 <= 2)%nat
  /\ concat (map (run [3; 1; 2] 2) (seq 0 (length (buildCandles [3; 1; 2] 2))))
     = [3; 1; 2].
Proof.
  assert (Hb : (1 <= 2)%nat) by lia.
  split; [exact Hb|].
  exact (proj1 (buildCandles_partition [3; 1; 2] 2 Hb)).
Defined.

(** Three ticks in buckets of two: a full candle and a shorter last one. *)
Example buildCandles_example :
  buildCandles [3; 1; 2] 2
  = [mkCandle 0 3 (Rmax 3 1) (Rmin 3 1) 1; mkCandle 2 2 2 2 2].
Proof.
  unfold buildCandles.
  rewrite buildCandles_from_unfold. simpl.
  rewrite buildCandles_from_unfold. simpl.
  rewrite buildCandles_from_unfold. simpl.
  reflexivity.
Qed.

(** ** The session: phases and the evaluation of the handlers *)

Lemma phase_Running s :
  phase s = Running
  <-> finished s = false /\ running s = true /\ initialClick s = true.
Proof.
  unfold phase. destruct (finished s), (running s), (initialClick s); simpl;
    split; intros H; try discriminate;
    try (destruct H as (? & ? & ?); discriminate); auto.
Qed.

Lemma phase_Finished s : phase s = Finished <-> finished s = true.
Proof.
  unfold phase. destruct (finished s), (running s), (initialClick s); simpl;
    split; intros H; try discriminate; auto.
Qed.

Lemma phase_WaitingToStart s :
  phase s = WaitingToStart
  <-> finished s = false /\ (running s = false \/ initialClick s = false).
Proof.
  unfold phase. destruct (finished s), (running s), (initialClick s); simpl;
    split; intros H; try discriminate; auto;
    destruct H as [? [?|?]]; discriminate.
Qed.

Lemma handleClick_blocked e s :
  showSettings s || showShop s || finished s = true -> handleClick e s = s.
Proof. intros H. unfold handleClick. rewrite H. reflexivity. Qed.

Lemma handleClick_start e s :
  showSettings s = false -> showShop s = false -> finished s = false ->
  initialClick s = false -> rightHalf e = true ->
  handleClick e s = setTimeLeft 60 (setRunning true (setInitialClick true s)).
Proof.
  unfold handleClick, rightHalf. intros -> -> -> -> ->. reflexivity.
Qed.

Lemma handleClick_buy e s :
  phase s = Running -> showSettings s = false -> showShop s = false ->
  rightHalf e = true -> 10 <= balance s ->
  handleClick e s =
  let amount := (balance s * (purchasePercent s / 100)) / lastOf (prices s) in
  let spent := amount * lastOf (prices s) in
  createFloatingText (now e) (clientX e) (clientY e) ("-$"%string, spent) "red"
    (setPortfolio (portfolio s + amount) (setBalance (balance s - spent) s)).
Proof.
  intros Hph Hset Hshop Hright Hbal.
  apply phase_Running in Hph as (Hf & Hr & Hi).
  unfold handleClick, rightHalf in *.
  rewrite Hset, Hshop, Hf, Hr, Hi, Hright. simpl.
  rewrite (proj2 (Rgeb_true_iff _ _) Hbal). reflexivity.
Qed.

Lemma handleClick_buy_rejected e s :
  initialClick s = true -> rightHalf e = true -> balance s < 10 ->
  handleClick e s = s.
Proof.
  intros Hi Hright Hbal. unfold handleClick, rightHalf in *.
  rewrite Hi, Hright. simpl.
  rewrite (proj2 (Rgeb_false_iff _ _) Hbal).
  destruct (showSettings s || showShop s || finished s); [reflexivity|].
  destruct (negb (running s) || false); reflexivity.
Qed.

Lemma handleClick_sell e s :
  phase s = Running -> showSettings s = false -> showShop s = false ->
  rightHalf e = false -> 0 < portfolio s ->
  handleClick e s =
  let earned := portfolio s * lastOf (prices s) in
  createFloatingText (now e) (clientX e) (clientY e) ("+$"%string, earned) "green"
    (setPortfolio 0 (setBalance (balance s + earned) s)).
Proof.
  intros Hph Hset Hshop Hleft Hpos.
  apply phase_Running in Hph as (Hf & Hr & Hi).
  unfold handleClick, rightHalf in *.
  rewrite Hset, Hshop, Hf, Hr, Hi, Hleft. simpl.
  rewrite (proj2 (Rgtb_true_iff _ _) Hpos). reflexivity.
Qed.

Lemma handleClick_sell_rejected e s :
  initialClick s = true -> rightHalf e = false -> portfolio s <= 0 ->
  handleClick e s = s.
Proof.
  intros Hi Hleft Hp. unfold handleClick, rightHalf in *.
  rewrite Hi, Hleft. simpl.
  rewrite (proj2 (Rgtb_false_iff _ _) Hp).
  destruct (showSettings s || showShop s || finished s); [reflexivity|].
  destruct (negb (running s) || false); reflexivity.
Qed.

Lemma handleClick_not_started e s :
  initialClick s = false -> rightHalf e = false -> handleClick e s = s.
Proof.
  intros Hi Hleft. unfold handleClick, rightHalf in *.
  rewrite Hi, Hleft. simpl. rewrite orb_true_r.
  destruct (showSettings s || showShop s || finished s); reflexivity.
Qed.

Lemma handleClick_not_running e s :
  running s = false -> initialClick s = true -> handleClick e s = s.
Proof.
  intros Hr Hi. unfold handleClick. rewrite Hr, Hi. simpl.
  destruct (showSettings s || showShop s || finished s); reflexivity.
Qed.

(** The four outcomes of a click. *)
Lemma handleClick_cases e s :
  handleClick e s = s
  \/ handleClick e s = setTimeLeft 60 (setRunning true (setInitialClick true s))
  \/ (rightHalf e = true /\ 10 <= balance s /\
      handleClick e s =
      createFloatingText (now e) (clientX e) (clientY e)
        ("-$"%string,
         balance s * (purchasePercent s / 100) / lastOf (prices s)
         * lastOf (prices s)) "red"
        (setPortfolio
           (portfolio s + balance s * (purchasePercent s / 100) / lastOf (prices s))
           (setBalance
              (balance s
               - balance s * (purchasePercent s / 100) / lastOf (prices s)
                 * lastOf (prices s))
              s)))
  \/ (rightHalf e = false /\ 0 < portfolio s /\
      handleClick e s =
      createFloatingText (now e) (clientX e) (clientY e)
        ("+$"%string, portfolio s * lastOf (prices s)) "green"
        (setPortfolio 0 (setBalance (balance s + portfolio s * lastOf (prices s)) s))).
Proof.
  unfold handleClick, rightHalf.
  destruct (showSettings s || showShop s || finished s); [left; reflexivity|].
  cbv zeta.
  destruct (negb (initialClick s)
            && Rgtb (clientX e - bounds_left e) (bounds_width e / 2));
    [right; left; reflexivity|].
  destruct (negb (running s) || negb (initialClick s)); [left; reflexivity|].
  destruct (Rgtb (clientX e - bounds_left e) (bounds_width e / 2)).
  - destruct (Rgeb (balance s) 10) eqn:Hb; [|left; reflexivity].
    apply Rgeb_true_iff in Hb. right; right; left. auto.
  - destruct (Rgtb (portfolio s) 0) eqn:Hp; [|left; reflexivity].
    apply Rgtb_true_iff in Hp. right; right; right. auto.
Qed.

Lemma finishEffect_idle s :
  running s = false \/ (0 < timeLeft s)%Z -> finishEffect s = s.
Proof.
  intros [Hr|Ht]; unfold finishEffect.
  - rewrite Hr. reflexivity.
  - replace (timeLeft s >? 0)%Z with true
      by (symmetry; rewrite Z.gtb_ltb; apply Z.ltb_lt; exact Ht).
    rewrite orb_true_r. reflexivity.
Qed.

Lemma finishEffect_fires s :
  running s = true -> (timeLeft s <= 0)%Z ->
  finishEffect s =
  let newBalance := balance s + portfolio s * lastOf (prices s) in
  let profitPct := (newBalance - 100) / 100 in
  setFinished true (setRunning false (setPortfolio 0
    (setBalance newBalance
       (if Rgtb profitPct 0
        then setSavedCoins (savedCoins s + profitPct * 100) s
        else s)))).
Proof.
  intros Hrun Htime. unfold finishEffect. rewrite Hrun.
  replace (timeLeft s >? 0)%Z with false
    by (symmetry; rewrite Z.gtb_ltb; apply Z.ltb_ge; lia).
  reflexivity.
Qed.

(** Over the reals what a buy takes is the part of the cash it allots; in
    binary64 the two sides can differ by a rounding, so this identity is
    used for the invariant of the real embedding only. *)
Lemma buy_spent (b pct price : R) :
  0 < price -> b * (pct / 100) / price * price = b * (pct / 100).
Proof. intros Hp. field. lra. Qed.

Lemma buy_amount_nonneg (b pct price : R) :
  0 <= b -> 0 <= pct -> 0 < price -> 0 <= b * (pct / 100) / price.
Proof.
  intros Hb Hpct Hp. apply Rmult_le_pos.
  - apply Rmult_le_pos; [exact Hb | lra].
  - left. apply Rinv_0_lt_compat. exact Hp.
Qed.

Lemma snoc_neq {A : Type} (xs : list A) (a : A) : xs ++ [a] <> xs.
Proof.
  intros H. apply (f_equal (@length A)) in H.
  rewrite length_app in H. simpl in H. lia.
Qed.

Lemma includes_snoc arr id : includes (arr ++ [id]) id = true.
Proof.
  unfold includes. rewrite existsb_app. simpl. rewrite String.eqb_refl.
  rewrite orb_true_r. reflexivity.
Qed.

(** ** The invariant of the reachable states *)

Lemma maxPoints_pos s : (1 <= maxPoints s)%nat.
Proof. unfold maxPoints. destruct (selectedChart s =? "candle")%string; lia. Qed.

Lemma Inv_initialState rnd : Inv (initialState rnd).
Proof.
  unfold Inv. simpl. split; [|lra].
  apply generateInitialPrices_positive. lra.
Qed.

Lemma Inv_priceTick d s : Inv s -> Inv (priceTick d s).
Proof.
  intros (Hps & Hb & Hp & Hpct).
  assert (Hnew : positive_series
            (sliceLast (maxPoints s)
               (prices s ++ [generatePrice (lastOf (prices s)) (mu s) (sigma s)
                                           (u_price d)]))).
  { apply sliceLast_positive; [apply maxPoints_pos|].
    apply positive_series_snoc; [exact Hps|].
    apply generatePrice_pos, lastOf_pos, Hps. }
  unfold priceTick. destruct (Rltb (u_shock d) 0.3); unfold Inv; simpl; auto.
Qed.

Lemma Inv_ensureCandleData rnd s : Inv s -> Inv (ensureCandleData rnd s).
Proof.
  intros (Hps & Hb & Hp & Hpct). unfold ensureCandleData.
  destruct ((selectedChart s =? "candle")%string
            && (length (prices s) <? CANDLE_INIT)%nat);
    unfold Inv; simpl; auto.
  split; [apply fillLoop_positive; exact Hps | auto].
Qed.

Lemma Inv_countdownTick s : Inv s -> Inv (countdownTick s).
Proof. intros H. unfold countdownTick. destruct (running s); exact H. Qed.

Lemma Inv_finishEffect s : Inv s -> Inv (finishEffect s).
Proof.
  intros (Hps & Hb & Hp & Hpct). unfold finishEffect.
  destruct (negb (running s) || (timeLeft s >? 0)%Z); [unfold Inv; auto|].
  pose proof (lastOf_pos _ Hps) as Hprice.
  assert (0 <= portfolio s * lastOf (prices s)) by (apply Rmult_le_pos; lra).
  cbv zeta. destruct (Rgtb _ 0); unfold Inv; simpl;
    repeat split; try lra; apply Hps.
Qed.

Lemma Inv_handleClick e s : Inv s -> Inv (handleClick e s).
Proof.
  intros (Hps & Hb & Hp & Hpct).
  pose proof (lastOf_pos _ Hps) as Hprice.
  destruct (handleClick_cases e s)
    as [-> | [-> | [(_ & Hbal & ->) | (_ & Hpos & ->)]]].
  - unfold Inv; auto.
  - unfold Inv; simpl; auto.
  - unfold Inv; simpl. rewrite buy_spent by exact Hprice.
    pose proof (buy_amount_nonneg (balance s) (purchasePercent s) _
                                  Hb ltac:(lra) Hprice).
    repeat split; try lra; try apply Hps. nra.
  - assert (0 <= portfolio s * lastOf (prices s)) by (apply Rmult_le_pos; lra).
    unfold Inv; simpl. repeat split; try lra; apply Hps.
Qed.

Lemma Inv_resetToHome rnd s : Inv s -> Inv (resetToHome rnd s).
Proof.
  intros (Hps & Hb & Hp & Hpct). unfold Inv, resetToHome. simpl.
  repeat split; try lra; apply generateInitialPrices_positive; lra.
Qed.

Lemma Inv_handlePurchase item s : Inv s -> Inv (handlePurchase item s).
Proof.
  intros H. unfold handlePurchase.
  repeat match goal with
         | |- context [if ?b then _ else _] => destruct b
         end; exact H.
Qed.

Lemma Inv_applyTheme id s : Inv s -> Inv (applyTheme id s).
Proof. intros H. unfold applyTheme. destruct (negb _); exact H. Qed.

Lemma Inv_toggleStat id s : Inv s -> Inv (toggleStat id s).
Proof. intros H. unfold toggleStat. destruct (negb _); exact H. Qed.

Lemma slider_value_bounds v : slider_value v -> 10 <= v <= 100.
Proof.
  intros (k & [Hlo Hhi] & ->).
  apply le_INR in Hlo, Hhi. simpl in Hlo.
  replace (INR 10) with 10 in Hhi by (simpl; lra). lra.
Qed.

Lemma reachable_Inv s : reachable s -> Inv s.
Proof.
  induction 1.
  - apply Inv_initialState.
  - apply Inv_priceTick; assumption.
  - apply Inv_ensureCandleData; assumption.
  - apply Inv_countdownTick; assumption.
  - apply Inv_finishEffect; assumption.
  - apply Inv_handleClick; assumption.
  - exact IHreachable.
  - apply Inv_resetToHome; assumption.
  - apply Inv_handlePurchase; assumption.
  - apply Inv_applyTheme; assumption.
  - apply Inv_toggleStat; assumption.
  - exact IHreachable.
  - destruct IHreachable as (? & ? & ? & ?). unfold Inv. simpl.
    match goal with Hv : slider_value _ |- _ =>
      pose proof (slider_value_bounds _ Hv) end.
    auto.
  - exact IHreachable.
  - exact IHreachable.
Qed.

(** ** The sample inputs *)

Lemma rightHalf_rightClick : rightHalf rightClick = true.
Proof. unfold rightHalf, rightClick. simpl. apply Rgtb_true_iff. lra. Qed.

Lemma rightHalf_leftClick : rightHalf leftClick = false.
Proof. unfold rightHalf, leftClick. simpl. apply Rgtb_false_iff. lra. Qed.

Lemma rnd0_unit_draw : forall k, unit_draw (rnd0 k).
Proof. intros k. unfold unit_draw, rnd0. lra. Qed.

Lemma started_eq :
  started
  = setTimeLeft 60 (setRunning true (setInitialClick true (initialState rnd0))).
Proof.
  unfold started. apply handleClick_start; try reflexivity.
  apply rightHalf_rightClick.
Qed.

Lemma reachable_started : reachable started.
Proof. apply reach_handleClick, reach_init, rnd0_unit_draw. Qed.

Lemma holding_eq :
  holding =
  let p := lastOf (prices (initialState rnd0)) in
  createFloatingText 0 300 200 ("-$"%string, 100 * (50 / 100) / p * p) "red"
    (setPortfolio (0 + 100 * (50 / 100) / p)
       (setBalance (100 - 100 * (50 / 100) / p * p) started)).
Proof.
  unfold holding. rewrite handleClick_buy.
  - rewrite started_eq. reflexivity.
  - rewrite started_eq. reflexivity.
  - rewrite started_eq. reflexivity.
  - rewrite started_eq. reflexivity.
  - exact rightHalf_rightClick.
  - rewrite started_eq. simpl. lra.
Qed.

Lemma lastOf_sampleRunning : lastOf (prices sampleRunning) = 100.
Proof. reflexivity. Qed.

Lemma lastOf_sampleTimeUp : lastOf (prices sampleTimeUp) = 120.
Proof. reflexivity. Qed.

(** ** The end of a session *)

(** C1. When the finish effect runs on a running session whose timer is at
    0, the cash becomes [finalValue = balance + portfolio * price], the
    shares become 0, the coins grow by
    [max 0 ((finalValue - 100) / 100) * 100], so not at all when
    [finalValue <= 100], and the session is finished and no longer running:
    running the effect or the countdown again changes nothing.  On a session
    that is not running, or whose timer is above 0, the effect changes
    nothing. *)
Theorem finish_fires_once (s : State) :
  running s = true -> (timeLeft s <= 0)%Z ->
  let finalValue := balance s + portfolio s * lastOf (prices s) in
  let s' := finishEffect s in
  balance s' = balance s + portfolio s * lastOf (prices s)
  /\ portfolio s' = 0
  /\ savedCoins s' = savedCoins s + Rmax 0 ((finalValue - 100) / 100) * 100
  /\ (finalValue <= 100 -> savedCoins s' = savedCoins s)
  /\ running s' = false /\ finished s' = true /\ phase s' = Finished
  /\ finishEffect s' = s'
  /\ countdownTick s' = s'
  /\ (forall s0, running s0 = false \/ (0 < timeLeft s0)%Z -> finishEffect s0 = s0).
Proof.
  intros Hrun Htime finalValue s'.
  pose proof (finishEffect_fires s Hrun Htime) as Hs'.
  cbv zeta in Hs'. fold finalValue in Hs'. fold s' in Hs'.
  assert (Hcoins : savedCoins s'
                   = savedCoins s + Rmax 0 ((finalValue - 100) / 100) * 100).
  { rewrite Hs'. destruct (Rgtb ((finalValue - 100) / 100) 0) eqn:Hp; simpl.
    - apply Rgtb_true_iff in Hp. rewrite Rmax_right by lra. reflexivity.
    - apply Rgtb_false_iff in Hp. rewrite Rmax_left by lra. lra. }
  assert (Hflags : running s' = false /\ finished s' = true).
  { rewrite Hs'. destruct (Rgtb ((finalValue - 100) / 100) 0); split; reflexivity. }
  destruct Hflags as [Hr Hf].
  split; [|split; [|split; [|split; [|split; [|split; [|split; [|split; [|split]]]]]]]].
  - rewrite Hs'. destruct (Rgtb ((finalValue - 100) / 100) 0); reflexivity.
  - rewrite Hs'. destruct (Rgtb ((finalValue - 100) / 100) 0); reflexivity.
  - exact Hcoins.
  - intros Hle. rewrite Hcoins. rewrite Rmax_left by lra. lra.
  - exact Hr.
  - exact Hf.
  - apply phase_Finished. exact Hf.
  - apply finishEffect_idle. left. exact Hr.
  - unfold countdownTick. rewrite Hr. reflexivity.
  - intros s0. apply finishEffect_idle.
Qed.

Lemma finish_fires_once_witness :
  running sampleTimeUp = true /\ (timeLeft sampleTimeUp <= 0)%Z
  /\ balance (finishEffect sampleTimeUp) = 0 + 1 * 120
  /\ portfolio (finishEffect sampleTimeUp) = 0
  /\ savedCoins (finishEffect sampleTimeUp)
     = 0 + Rmax 0 ((0 + 1 * 120 - 100) / 100) * 100.
Proof.
  assert (Hrun : running sampleTimeUp = true) by reflexivity.
  assert (Htime : (timeLeft sampleTimeUp <= 0)%Z) by (simpl; lia).
  split; [exact Hrun|]. split; [exact Htime|].
  destruct (finish_fires_once sampleTimeUp Hrun Htime) as (Hb & Hp & Hc & _).
  split; [exact Hb|]. split; [exact Hp | exact Hc].
Defined.

(** A final value of 120 from 100 mints 20 coins. *)
Example finish_mints_twenty : savedCoins (finishEffect sampleTimeUp) = 20.
Proof.
  rewrite finishEffect_fires by (reflexivity || (simpl; lia)).
  cbv zeta. rewrite lastOf_sampleTimeUp.
  rewrite (proj2 (Rgtb_true_iff _ _)) by (simpl; lra).
  simpl. lra.
Qed.

(** ** Buying *)

(** While a popup is open a click does nothing: in the reachable state
    [shopOpen] the session is running, the click is on the buying side and
    the cash is 100, and [handleClick] returns the state as it was. *)
Lemma buy_blocked_while_shop_open :
  reachable shopOpen /\ phase shopOpen = Running
  /\ rightHalf rightClick = true
  /\ 10 <= balance shopOpen
  /\ handleClick rightClick shopOpen = shopOpen.
Proof.
  split; [apply reach_setShowShop, reachable_started|].
  unfold shopOpen. rewrite started_eq.
  split; [reflexivity|]. split; [apply rightHalf_rightClick|].
  split; [simpl; lra|].
  apply handleClick_blocked. reflexivity.
Qed.

(** C2, as stated, fails in two ways.  While a popup is open a running
    session with cash 100 does not buy ([shopOpen]).  And what a buy takes
    from the cash is [amount * price], not [balance * (percent / 100)]: in
    binary64, with cash 100, 50 percent and the price 65.23, the buy leaves
    49.99999999999999, while [100 - 100 * (50 / 100)] is 50. *)
Lemma buy_blocked_or_inexact :
  (reachable shopOpen /\ phase shopOpen = Running
   /\ rightHalf rightClick = true
   /\ 10 <= balance shopOpen
   /\ handleClick rightClick shopOpen = shopOpen)
  /\ (Binary64.buy 50 65.23 (100, 0) = (49.99999999999999, 0.7665184730952016)
      /\ 100 - 100 * (50 / 100) = 50
      /\ (fst (Binary64.buy 50 65.23 (100, 0)) =? 100 - 100 * (50 / 100)) = false)%float.
Proof.
  split; [exact buy_blocked_while_shop_open|].
  repeat split; vm_compute; reflexivity.
Qed.

(** C2, amended.  While the session is running and neither the settings
    nor the shop popup is open, a click on the buying side buys if and only
    if the cash is at least 10; a buy adds
    [amount = (balance * (purchasePercent / 100)) / price] to the shares,
    takes [spent = amount * price] from the cash and shows [spent]; with
    cash 100, price 100 and 50 percent the amount is 0.5, the buy spends 50
    and leaves 50, over the reals and, computed, in binary64. *)
Theorem buy_rule (s : State) (e : ClickEvent) :
  phase s = Running -> showSettings s = false -> showShop s = false ->
  rightHalf e = true ->
  let amount := balance s * (purchasePercent s / 100) / lastOf (prices s) in
  let spent := amount * lastOf (prices s) in
  let s' := handleClick e s in
  (10 <= balance s ->
     balance s' = balance s - spent
     /\ portfolio s' = portfolio s + amount
     /\ floatingTexts s' =
        floatingTexts s
          ++ [mkFloatingText (now e) (clientX e) (clientY e)
                             ("-$"%string, spent) "red"])
  /\ (balance s < 10 -> s' = s)
  /\ (s' <> s <-> 10 <= balance s)
  /\ (balance s = 100 -> lastOf (prices s) = 100 -> purchasePercent s = 50 ->
        amount = 0.5 /\ spent = 50
        /\ balance s' = 50 /\ portfolio s' = portfolio s + 0.5)
  /\ (Binary64.buy 50 100 (100, 0) = (50, 0.5))%float.
Proof.
  intros Hph Hset Hshop Hright amount spent s'.
  assert (Hexample : (Binary64.buy 50 100 (100, 0) = (50, 0.5))%float)
    by (vm_compute; reflexivity).
  assert (Hok : 10 <= balance s ->
     balance s' = balance s - spent
     /\ portfolio s' = portfolio s + amount
     /\ floatingTexts s' =
        floatingTexts s
          ++ [mkFloatingText (now e) (clientX e) (clientY e)
                             ("-$"%string, spent) "red"]).
  { intros Hbal. unfold s'. rewrite handleClick_buy by assumption. simpl. auto. }
  assert (Hrej : balance s < 10 -> s' = s).
  { intros Hbal. apply handleClick_buy_rejected; try assumption.
    apply phase_Running in Hph. apply Hph. }
  split; [exact Hok|]. split; [exact Hrej|]. split; [|split].
  - split.
    + intros Hneq. destruct (Rle_dec 10 (balance s)) as [Hle|Hnle]; [exact Hle|].
      exfalso. apply Hneq, Hrej. lra.
    + intros Hbal Heq. destruct (Hok Hbal) as (_ & _ & Hft).
      rewrite Heq in Hft. symmetry in Hft. exact (snoc_neq _ _ Hft).
  - intros Hb Hp Hpct. destruct (Hok ltac:(lra)) as (Hb' & Hp' & _).
    assert (Ha : amount = 0.5) by (unfold amount; rewrite Hb, Hp, Hpct; lra).
    assert (Hs : spent = 50) by (unfold spent; rewrite Ha, Hp; lra).
    rewrite Hb', Hp', Hs, Ha, Hb. repeat split; lra.
  - exact Hexample.
Qed.

Lemma buy_rule_witness :
  phase sampleRunning = Running
  /\ showSettings sampleRunning = false /\ showShop sampleRunning = false
  /\ rightHalf rightClick = true
  /\ balance (handleClick rightClick sampleRunning) = 50
  /\ portfolio (handleClick rightClick sampleRunning)
     = portfolio sampleRunning + 0.5.
Proof.
  split; [reflexivity|]. split; [reflexivity|]. split; [reflexivity|].
  split; [exact rightHalf_rightClick|].
  exact (proj2 (proj2 (proj1 (proj2 (proj2 (proj2
    (buy_rule sampleRunning rightClick eq_refl eq_refl eq_refl
              rightHalf_rightClick))))
    eq_refl lastOf_sampleRunning eq_refl))).
Defined.

(** ** Buying, then selling *)

(** Over the reals, after a buy and a sell at one price the cash is what it
    was plus the value of the shares held before the buy. *)
Lemma buy_then_sell_balance (s : State) (eb es : ClickEvent) :
  phase s = Running -> showSettings s = false -> showShop s = false ->
  0 <= portfolio s -> 0 < lastOf (prices s) -> 0 <= purchasePercent s ->
  rightHalf eb = true -> rightHalf es = false ->
  balance (handleClick es (handleClick eb s))
  = balance s + portfolio s * lastOf (prices s).
Proof.
  intros Hph Hset Hshop Hp Hprice Hpct Hb Hs.
  pose proof (proj1 (phase_Running s) Hph) as (Hf & Hr & Hi).
  destruct (Rle_dec 10 (balance s)) as [Hbal|Hbal].
  - rewrite (handleClick_buy eb s) by assumption. cbv zeta.
    set (amount := balance s * (purchasePercent s / 100) / lastOf (prices s)).
    assert (Hamount : 0 <= amount) by (apply buy_amount_nonneg; lra).
    set (s1 := createFloatingText _ _ _ _ _ _).
    assert (Hph1 : phase s1 = Running) by exact Hph.
    destruct (Rle_lt_dec (portfolio s1) 0) as [Hzero|Hpos].
    + rewrite handleClick_sell_rejected by (assumption || exact Hi).
      unfold s1 in *. simpl in *. nra.
    + rewrite handleClick_sell by assumption. simpl. fold amount. nra.
  - rewrite (handleClick_buy_rejected eb s) by (assumption || lra).
    destruct (Rle_lt_dec (portfolio s) 0) as [Hzero|Hpos].
    + rewrite handleClick_sell_rejected by assumption. nra.
    + rewrite handleClick_sell by assumption. reflexivity.
Qed.

(** When shares are held before the buy, the sell liquidates them too: in
    the reachable state [holding] of the real embedding (after the start
    gesture and one buy) the session is running with cash 50; a buy and then
    a sell, with no tick in between, leave cash 100. *)
Lemma buy_then_sell_liquidates_earlier_shares :
  reachable holding /\ phase holding = Running
  /\ balance holding = 50
  /\ balance (handleClick leftClick (handleClick rightClick holding)) = 100.
Proof.
  assert (Hreach : reachable holding) by apply reach_handleClick, reachable_started.
  pose proof (reachable_Inv _ Hreach) as HInv.
  assert (Hprice0 : 0 < lastOf (prices (initialState rnd0))).
  { apply lastOf_pos, Inv_initialState. }
  set (p := lastOf (prices (initialState rnd0))) in *.
  assert (Hph : phase holding = Running)
    by (rewrite holding_eq, started_eq; reflexivity).
  assert (Hset : showSettings holding = false)
    by (rewrite holding_eq, started_eq; reflexivity).
  assert (Hshop : showShop holding = false)
    by (rewrite holding_eq, started_eq; reflexivity).
  assert (Hpct : purchasePercent holding = 50)
    by (rewrite holding_eq, started_eq; reflexivity).
  assert (Hprice : lastOf (prices holding) = p)
    by (rewrite holding_eq, started_eq; reflexivity).
  assert (Hbal : balance holding = 100 - 100 * (50 / 100) / p * p)
    by (rewrite holding_eq, started_eq; reflexivity).
  assert (Hport : portfolio holding = 0 + 100 * (50 / 100) / p)
    by (rewrite holding_eq, started_eq; reflexivity).
  rewrite buy_spent in Hbal by exact Hprice0.
  split; [exact Hreach|]. split; [exact Hph|]. split; [lra|].
  rewrite buy_then_sell_balance.
  - rewrite Hbal, Hport, Hprice. field. lra.
  - exact Hph.
  - exact Hset.
  - exact Hshop.
  - apply HInv.
  - rewrite Hprice. exact Hprice0.
  - rewrite Hpct. lra.
  - exact rightHalf_rightClick.
  - exact rightHalf_leftClick.
Qed.

(** C7, as stated, fails in two ways.  When shares are held before the buy
    the sell liquidates them too ([holding]: cash 50 before, 100 after).
    And with no shares held the cash comes back as
    [(balance - spent) + spent], which rounds twice: in binary64, from cash
    10.08 with 10 percent at the price 99.5, a buy and then a sell leave
    10.079999999999998. *)
Lemma round_trip_liquidates_or_rounds :
  (reachable holding /\ phase holding = Running
   /\ balance holding = 50
   /\ balance (handleClick leftClick (handleClick rightClick holding)) = 100)
  /\ (Binary64.buy 10 99.5 (10.08, 0) = (9.072, 0.010130653266331658)
      /\ Binary64.sell 99.5 (Binary64.buy 10 99.5 (10.08, 0))
         = (10.079999999999998, 0)
      /\ (fst (Binary64.sell 99.5 (Binary64.buy 10 99.5 (10.08, 0))) =? 10.08)
         = false)%float.
Proof.
  split; [exact buy_then_sell_liquidates_earlier_shares|].
  repeat split; vm_compute; reflexivity.
Qed.

(** In binary64 adding a positive number to 0 gives that number. *)
Lemma Binary64_add_zero_positive (x : float) :
  (0 <? x)%float = true -> (0 + x = x)%float.
Proof.
  intros Hpos. apply Prim2SF_inj.
  rewrite add_spec. rewrite ltb_spec in Hpos.
  change (Prim2SF 0) with (S754_zero false) in *.
  destruct (Prim2SF x) as [sx | sx | | sx mx ex]; try reflexivity.
  discriminate Hpos.
Qed.

(** C7, amended.  In a running state that holds no shares and has no popup
    open, a click on the buying side that buys (cash at least 10, amount
    bought above 0) followed by a click on the selling side, with no tick in
    between, gives back what the buy took: the shares are 0 again and the
    cash is [(balance - spent) + spent], where
    [spent = ((balance * (purchasePercent / 100)) / price) * price] is both
    what the buy takes and what the sell adds.  When the buy is refused (a
    popup is open, or the cash is below 10) the two clicks leave the state
    as it was.  The arithmetic of the two clicks in binary64 gives the same
    cells: no shares and the cash [(balance - spent) + spent], each
    operation rounded. *)
Theorem buy_then_sell_round_trip (s : State) (eb es : ClickEvent) :
  phase s = Running -> portfolio s = 0 ->
  rightHalf eb = true -> rightHalf es = false ->
  let amount := balance s * (purchasePercent s / 100) / lastOf (prices s) in
  let spent := amount * lastOf (prices s) in
  let s'' := handleClick es (handleClick eb s) in
  (showSettings s = false -> showShop s = false ->
   10 <= balance s -> 0 < amount ->
     balance s'' = balance s - spent + spent
     /\ portfolio s'' = 0
     /\ portfolio (handleClick eb s) * lastOf (prices (handleClick eb s)) = spent)
  /\ (showSettings s = true \/ showShop s = true \/ balance s < 10 -> s'' = s)
  /\ (forall percent price cash : float,
        let amount64 := (cash * (percent / 100) / price)%float in
        let spent64 := (amount64 * price)%float in
        (10 <=? cash)%float = true -> (0 <? amount64)%float = true ->
        Binary64.sell price (Binary64.buy percent price (cash, 0%float))
        = ((cash - spent64 + spent64)%float, 0%float)).
Proof.
  intros Hph Hp Hb Hs amount spent s''.
  pose proof (proj1 (phase_Running s) Hph) as (Hf & Hr & Hi).
  split; [|split].
  3: { intros percent price cash amount64 spent64 Hcash Hamount.
       unfold Binary64.buy, Binary64.sell. rewrite Hcash.
       fold amount64. fold spent64.
       rewrite (Binary64_add_zero_positive amount64 Hamount), Hamount.
       reflexivity. }
  - intros Hset Hshop Hbal Hamount. unfold s''.
    rewrite (handleClick_buy eb s) by assumption. cbv zeta.
    fold amount. fold spent.
    set (s1 := createFloatingText _ _ _ _ _ _).
    assert (Hph1 : phase s1 = Running) by exact Hph.
    assert (Hport : portfolio s1 = amount).
    { unfold s1. simpl. rewrite Hp. lra. }
    assert (Hprice1 : lastOf (prices s1) = lastOf (prices s)) by reflexivity.
    rewrite handleClick_sell; try assumption; [|rewrite Hport; exact Hamount].
    cbv zeta. rewrite Hport, Hprice1. fold spent. simpl. auto.
  - intros Hrej. unfold s''.
    assert (Hbuy : handleClick eb s = s).
    { destruct Hrej as [Hset | [Hshop | Hbal]].
      - apply handleClick_blocked. rewrite Hset. reflexivity.
      - apply handleClick_blocked. rewrite Hshop. apply orb_true_iff. left.
        apply orb_true_r.
      - apply handleClick_buy_rejected; assumption. }
    rewrite Hbuy. destruct (showSettings s || showShop s || finished s) eqn:Hblock.
    + apply handleClick_blocked. exact Hblock.
    + apply handleClick_sell_rejected; try assumption. lra.
Qed.

Lemma buy_then_sell_round_trip_witness :
  phase sampleRunning = Running /\ portfolio sampleRunning = 0
  /\ rightHalf rightClick = true /\ rightHalf leftClick = false
  /\ portfolio (handleClick leftClick (handleClick rightClick sampleRunning)) = 0.
Proof.
  split; [reflexivity|]. split; [reflexivity|].
  split; [exact rightHalf_rightClick|]. split; [exact rightHalf_leftClick|].
  pose proof (buy_then_sell_round_trip sampleRunning rightClick leftClick
                eq_refl eq_refl rightHalf_rightClick rightHalf_leftClick) as H.
  cbv zeta in H. destruct H as [H _].
  apply H; try reflexivity.
  - simpl. lra.
  - rewrite lastOf_sampleRunning. simpl. lra.
Defined.

(** The round trip of the sample state in binary64: cash 100, 50 percent,
    price 100, where every step is exact. *)
Example round_trip_binary64_example :
  (Binary64.sell 100 (Binary64.buy 50 100 (100, 0)) = (100, 0))%float.
Proof. vm_compute. reflexivity. Qed.

(** ** Reset *)

(** C3, as stated, fails: at startup the series has 10 prices and the
    volatility is 0.1, and a reset with the candle chart selected gives a
    series of 50 prices and the volatility 0.01. *)
Lemma reset_differs_from_startup :
  length (prices (initialState rnd0)) = 10%nat
  /\ length (prices (resetToHome rnd0 candleSelected)) = 50%nat
  /\ sigma (initialState rnd0) = 0.1
  /\ sigma (resetToHome rnd0 candleSelected) = 0.01.
Proof.
  split; [|split; [|split; reflexivity]].
  - unfold initialState. cbn [prices].
    rewrite generateInitialPrices_length. reflexivity.
  - unfold resetToHome, candleSelected. simpl selectedChart.
    cbn [String.eqb Ascii.eqb Bool.eqb].
    cbn [prices setPrices]. rewrite generateInitialPrices_length. reflexivity.
Qed.

(** C3, amended.  Reset gives cash 100, no shares, the timer at 60, the
    phase [WaitingToStart] and the drift 0.001, all as at startup, and a
    series drawn afresh by the seeding rule of startup (start price 100,
    drift 0.001, volatility 0.01) whose length is 50 when the candle chart
    is selected and 10, as at startup, otherwise. *)
Theorem reset_restores_session (rnd : nat -> R) (s : State) :
  let s' := resetToHome rnd s in
  let initLen := if (selectedChart s =? "candle")%string
                 then CANDLE_INIT else LINE_INIT in
  balance s' = 100 /\ balance s' = balance (initialState rnd)
  /\ portfolio s' = 0 /\ portfolio s' = portfolio (initialState rnd)
  /\ timeLeft s' = 60%Z /\ timeLeft s' = timeLeft (initialState rnd)
  /\ phase s' = WaitingToStart /\ phase s' = phase (initialState rnd)
  /\ mu s' = 0.001 /\ mu s' = mu (initialState rnd)
  /\ prices s' = generateInitialPrices initLen 100 0.001 0.01 rnd
  /\ length (prices s') = initLen
  /\ nth 0 (prices s') 0 = 100
  /\ (selectedChart s <> "candle"%string -> prices s' = prices (initialState rnd)).
Proof.
  cbv zeta. unfold resetToHome. cbn [balance portfolio timeLeft mu prices setPrices].
  repeat split.
  - rewrite generateInitialPrices_length.
    destruct (selectedChart s =? "candle")%string; reflexivity.
  - apply generateInitialPrices_head.
  - intros Hline. apply String.eqb_neq in Hline. rewrite Hline. reflexivity.
Qed.

(** ** Rejections *)

Lemma finished_sampleFinished : finished sampleFinished = true.
Proof.
  unfold sampleFinished.
  rewrite finishEffect_fires by (reflexivity || (simpl; lia)).
  cbv zeta. destruct (Rgtb _ 0); reflexivity.
Qed.

(** C8. A click leaves the state as it was when the session is finished,
    when it waits for the start and the click is not on the starting side,
    when it is a buy with cash below 10, and when it is a sell with no
    shares; a purchase leaves the state as it was when the coins are fewer
    than the price and when the item is owned; and a purchase either leaves
    the state as it was, or takes the price from the coins and makes the item
    owned, both at once. *)
Theorem rejections_leave_state_unchanged :
  (forall s e, phase s = Finished -> handleClick e s = s)
  /\ (forall s e, phase s = WaitingToStart -> rightHalf e = false ->
        handleClick e s = s)
  /\ (forall s e, phase s = Running -> rightHalf e = true -> balance s < 10 ->
        handleClick e s = s)
  /\ (forall s e, phase s = Running -> rightHalf e = false -> portfolio s = 0 ->
        handleClick e s = s)
  /\ (forall s item, savedCoins s < item_price item -> handlePurchase item s = s)
  /\ (forall s item, owned item s = true -> handlePurchase item s = s)
  /\ (forall s item,
        let s' := handlePurchase item s in
        s' = s
        \/ (savedCoins s' = savedCoins s - item_price item
            /\ owned item s = false /\ owned item s' = true)).
Proof.
  repeat split.
  - intros s e Hph. apply phase_Finished in Hph. apply handleClick_blocked.
    rewrite Hph. apply orb_true_r.
  - intros s e Hph Hleft. apply phase_WaitingToStart in Hph as (_ & [Hr|Hi]).
    + destruct (initialClick s) eqn:Hi.
      * apply handleClick_not_running; assumption.
      * apply handleClick_not_started; assumption.
    + apply handleClick_not_started; assumption.
  - intros s e Hph Hright Hbal. apply phase_Running in Hph as (_ & _ & Hi).
    apply handleClick_buy_rejected; assumption.
  - intros s e Hph Hleft Hp. apply phase_Running in Hph as (_ & _ & Hi).
    apply handleClick_sell_rejected; try assumption. lra.
  - intros s item Hcoins. unfold handlePurchase.
    rewrite (proj2 (Rgeb_false_iff _ _) Hcoins).
    repeat match goal with
           | |- context [if ?b then _ else _] => destruct b
           end; reflexivity.
  - intros s item Hown. unfold owned in Hown. unfold handlePurchase.
    destruct (item_type item =? "theme")%string eqn:Ht.
    + apply String.eqb_eq in Ht. rewrite Ht in Hown. simpl in Hown.
      rewrite !orb_false_r in Hown. rewrite Hown. reflexivity.
    + destruct (item_type item =? "chart")%string eqn:Hc.
      * apply String.eqb_eq in Hc. rewrite Hc in Hown. simpl in Hown.
        rewrite !orb_false_r in Hown. rewrite Hown. reflexivity.
      * destruct (item_type item =? "stat")%string; [|reflexivity].
        simpl in Hown. rewrite Hown. reflexivity.
  - intros s item. cbv zeta. unfold handlePurchase, owned.
    destruct (item_type item =? "theme")%string eqn:Ht.
    + apply String.eqb_eq in Ht. rewrite Ht. simpl.
      destruct (includes (unlockedThemes s) (item_id item)) eqn:Hin;
        [left; reflexivity|].
      destruct (Rgeb (savedCoins s) (item_price item)); [|left; reflexivity].
      right. simpl. rewrite includes_snoc. auto.
    + destruct (item_type item =? "chart")%string eqn:Hc.
      * apply String.eqb_eq in Hc. rewrite Hc. simpl.
        destruct (includes (unlockedCharts s) (item_id item)) eqn:Hin;
          [left; reflexivity|].
        destruct (Rgeb (savedCoins s) (item_price item)); [|left; reflexivity].
        right. simpl. rewrite includes_snoc. auto.
      * destruct (item_type item =? "stat")%string eqn:Hs; [|left; reflexivity].
        simpl.
        destruct (includes (unlockedStats s) (item_id item)) eqn:Hin;
          [left; reflexivity|].
        destruct (Rgeb (savedCoins s) (item_price item)); [|left; reflexivity].
        right. simpl. rewrite includes_snoc. auto.
Qed.

Lemma rejections_leave_state_unchanged_witness :
  phase sampleFinished = Finished
  /\ handleClick rightClick sampleFinished = sampleFinished.
Proof.
  assert (Hph : phase sampleFinished = Finished)
    by (apply phase_Finished, finished_sampleFinished).
  split; [exact Hph|].
  exact (proj1 rejections_leave_state_unchanged sampleFinished rightClick Hph).
Defined.

(** ** Shares and cash never go below zero *)






(** * Further properties of the code *)

Import Render Kept.

(** ** The exponential moving average *)

Lemma ema_loop_length (series : list R) k m first :
  length (fold_left (ema_step series k) (seq 1 m) [first]) = S m.
Proof.
  induction m as [|m IH]; [reflexivity|].
  rewrite seq_S, fold_left_app. simpl. unfold ema_step at 1.
  rewrite length_app, IH. simpl. lia.
Qed.

Lemma ema_loop_snoc (series : list R) k m first :
  fold_left (ema_step series k) (seq 1 (S m)) [first]
  = fold_left (ema_step series k) (seq 1 m) [first]
    ++ [nth (S m) series 0 * k
        + nth m (fold_left (ema_step series k) (seq 1 m) [first]) 0 * (1 - k)].
Proof.
  rewrite seq_S, fold_left_app. simpl. unfold ema_step at 1.
  replace (S m - 1)%nat with m by lia. reflexivity.
Qed.

(** The values of the loop of [ema] after [m] iterations: the seed, then
    the recurrence. *)
Lemma ema_loop_nth (series : list R) k m first :
  nth 0 (fold_left (ema_step series k) (seq 1 m) [first]) 0 = first
  /\ forall i, (i < m)%nat ->
       nth (S i) (fold_left (ema_step series k) (seq 1 m) [first]) 0
       = nth (S i) series 0 * k
         + nth i (fold_left (ema_step series k) (seq 1 m) [first]) 0 * (1 - k).
Proof.
  induction m as [|m [IH0 IH]].
  - split; [reflexivity | intros i Hi; lia].
  - rewrite ema_loop_snoc.
    pose proof (ema_loop_length series k m first) as Hlen.
    split.
    + rewrite app_nth1 by lia. exact IH0.
    + intros i Hi. destruct (Nat.eq_dec i m) as [->|Hne].
      * rewrite app_nth2 by lia. rewrite Hlen, Nat.sub_diag. simpl.
        rewrite app_nth1 by lia. reflexivity.
      * rewrite !app_nth1 by lia. apply IH. lia.
Qed.

Lemma ema_values (series : list R) (window : nat) :
  let k := 2 / (INR window + 1) in
  (series = [] -> ema series window = [])
  /\ length (ema series window) = length series
  /\ nth 0 (ema series window) 0 = nth 0 series 0
  /\ forall i, (S i < length series)%nat ->
       nth (S i) (ema series window) 0
       = nth (S i) series 0 * k + nth i (ema series window) 0 * (1 - k).
Proof.
  intros k. unfold ema. destruct series as [|d series].
  - split; [reflexivity|]. split; [reflexivity|]. split; [reflexivity|].
    intros i Hi. simpl in Hi. lia.
  - cbn [length Nat.eqb]. cbv zeta. fold k.
    replace (S (length series) - 1)%nat with (length series) by lia.
    destruct (ema_loop_nth (d :: series) k (length series) (nth 0 (d :: series) 0))
      as [H0 Hrec].
    split; [discriminate|]. split; [apply ema_loop_length|].
    split; [exact H0|].
    intros i Hi. apply Hrec. lia.
Qed.

(** X1. [ema] is empty on the empty series; otherwise it is as long as the
    series, starts with the first price, and every later value is
    [price * k + previous * (1 - k)] with [k = 2 / (window + 1)]. *)
Theorem ema_recurrence (series : list R) (window : nat) :
  let k := 2 / (INR window + 1) in
  (series = [] -> ema series window = [])
  /\ length (ema series window) = length series
  /\ nth 0 (ema series window) 0 = nth 0 series 0
  /\ forall i, (S i < length series)%nat ->
       nth (S i) (ema series window) 0
       = nth (S i) series 0 * k + nth i (ema series window) 0 * (1 - k).
Proof. exact (ema_values series window). Qed.


(** ** Candles: edge cases and count *)

(** X5. [buildCandles] returns no candle for the empty series, and for a
    group size of 0 (the loop leaves at its first empty slice). *)
Theorem buildCandles_degenerate (series : list R) (group : nat) :
  buildCandles [] group = []
  /\ buildCandles series 0 = [].
Proof.
  unfold buildCandles. split.
  - rewrite buildCandles_from_unfold. reflexivity.
  - rewrite buildCandles_from_unfold.
    destruct (lt_dec 0 (length series)); reflexivity.
Qed.

(** X6. For a bucket size of at least 1 the number of candles is the
    length of the series divided by the bucket size, rounded up. *)
Theorem buildCandles_count (series : list R) (bucketSize : nat) :
  (1 <= bucketSize)%nat ->
  length (buildCandles series bucketSize)
  = ((length series + bucketSize - 1) / bucketSize)%nat.
Proof.
  intros Hb.
  destruct (buildCandles_from_count series bucketSize 0 Hb) as [Hcover Hstart].
  fold (buildCandles series bucketSize) in Hcover, Hstart.
  simpl in Hcover, Hstart.
  set (m := length (buildCandles series bucketSize)) in *.
  destruct m as [|m].
  - simpl in Hcover. assert (Hn : length series = 0%nat) by lia. rewrite Hn.
    symmetry. apply Nat.div_small. lia.
  - pose proof (Hstart m ltac:(lia)) as Hlast.
    apply Nat.div_unique with (r := (length series + bucketSize - 1 - bucketSize * S m)%nat);
      nia.
Qed.

Lemma buildCandles_count_witness :
  (1 <= 5)%nat /\ length (buildCandles [1; 2; 3; 4; 5; 6; 7] 5) = 2%nat.
Proof.
  assert (Hb : (1 <= 5)%nat) by lia.
  split; [exact Hb|].
  exact (buildCandles_count [1; 2; 3; 4; 5; 6; 7] 5 Hb).
Defined.

(** X7. With a bucket size of 1 there is one candle per price, at the
    index of the price, with open, high, low and close all equal to it. *)
Theorem buildCandles_unit_bucket (series : list R) :
  length (buildCandles series 1) = length series
  /\ forall k, (k < length series)%nat ->
       nth k (buildCandles series 1) (mkCandle 0 0 0 0 0)
       = let p := nth k series 0 in mkCandle k p p p p.
Proof.
  assert (Hlen : length (buildCandles series 1) = length series).
  { destruct (buildCandles_from_count series 1 0 ltac:(lia)) as [Hcover Hstart].
    fold (buildCandles series 1) in Hcover, Hstart. simpl in Hcover, Hstart.
    destruct (Nat.lt_ge_cases (length series) (length (buildCandles series 1)))
      as [Hlt|Hge]; [|lia].
    specialize (Hstart (length series) Hlt). lia. }
  split; [exact Hlen|].
  intros k Hk. rewrite <- Hlen in Hk.
  destruct (buildCandles_from_nth series 1 (mkCandle 0 0 0 0 0) k 0%nat Hk)
    as (first & rest & Hslice & Hnth).
  rewrite Hlen in Hk.
  unfold buildCandles. rewrite Hnth. simpl Nat.add in *.
  rewrite Nat.mul_1_r in *.
  rewrite slice_as_map in Hslice by lia. simpl in Hslice.
  injection Hslice as <- <-. reflexivity.
Qed.

(** ** The seeded series *)

Lemma initLoop_chained fuel : forall i arr mu sigma rnd,
  i = length arr -> (1 <= i)%nat ->
  chained mu sigma rnd arr ->
  chained mu sigma rnd (initLoop fuel i arr mu sigma rnd).
Proof.
  induction fuel as [|fuel IH]; intros i arr mu sigma rnd Hi Hpos Hch; simpl;
    [exact Hch|].
  apply IH.
  - rewrite length_app. simpl. lia.
  - lia.
  - intros j Hj. rewrite length_app in Hj. simpl in Hj.
    destruct (Nat.eq_dec (S j) (length arr)) as [Heq|Hne].
    + rewrite app_nth2 by lia. rewrite Heq, Nat.sub_diag. simpl.
      rewrite app_nth1 by lia.
      replace (i - 1)%nat with j by lia. reflexivity.
    + rewrite !app_nth1 by lia. apply Hch. lia.
Qed.

Lemma generateInitialPrices_chained len start mu sigma rnd :
  chained mu sigma rnd (generateInitialPrices len start mu sigma rnd).
Proof.
  unfold generateInitialPrices. apply initLoop_chained; [reflexivity | lia |].
  intros j Hj. simpl in Hj. lia.
Qed.

(** X8. [generateInitialPrices] returns [max 1 len] prices (one even for
    [len = 0]), the first is the start price, and each later one is
    [generatePrice] of the one before it with the draw of that step. *)
Theorem generateInitialPrices_path (len : nat) (start mu sigma : R)
        (rnd : nat -> R) :
  let arr := generateInitialPrices len start mu sigma rnd in
  length arr = Nat.max 1 len
  /\ nth 0 arr 0 = start
  /\ (forall j, (S j < Nat.max 1 len)%nat ->
        nth (S j) arr 0 = generatePrice (nth j arr 0) mu sigma (rnd j)).
Proof.
  cbv zeta. split; [apply generateInitialPrices_length|].
  split; [apply generateInitialPrices_head|].
  intros j Hj. apply generateInitialPrices_chained.
  rewrite generateInitialPrices_length. exact Hj.
Qed.

(** ** One step of the price *)

Lemma exp_le_compat a b : a <= b -> exp a <= exp b.
Proof.
  intros [Hlt|Heq].
  - left. apply exp_increasing. exact Hlt.
  - right. rewrite Heq. reflexivity.
Qed.

(** X10. For a volatility that is not negative, one step moves the price
    by a factor between [exp (mu - sigma^2/2 - sigma)] and
    [exp (mu - sigma^2/2 + sigma)]. *)
Theorem generatePrice_step_bounds (prev mu sigma u : R) :
  0 <= u < 1 -> 0 < prev -> 0 <= sigma ->
  prev * exp (mu - 0.5 * sigma ^ 2 - sigma)
  <= generatePrice prev mu sigma u
  <= prev * exp (mu - 0.5 * sigma ^ 2 + sigma).
Proof.
  intros Hu Hprev Hsigma. unfold generatePrice. cbv zeta. rewrite sqrt_1.
  split; apply Rmult_le_compat_l; try lra; apply exp_le_compat; nra.
Qed.

Lemma generatePrice_step_bounds_witness :
  0 <= 0.25 < 1 /\ 0 < 100 /\ 0 <= 0.01
  /\ 100 * exp (0.001 - 0.5 * 0.01 ^ 2 - 0.01)
     <= generatePrice 100 0.001 0.01 0.25
     <= 100 * exp (0.001 - 0.5 * 0.01 ^ 2 + 0.01).
Proof.
  assert (Hu : 0 <= 0.25 < 1) by lra.
  assert (Hprev : 0 < 100) by lra.
  assert (Hsigma : 0 <= 0.01) by lra.
  split; [exact Hu|]. split; [exact Hprev|]. split; [exact Hsigma|].
  exact (generatePrice_step_bounds 100 0.001 0.01 0.25 Hu Hprev Hsigma).
Defined.

(** ** The price tick *)

Lemma lastOf_snoc (arr : list R) (a : R) : lastOf (arr ++ [a]) = a.
Proof.
  unfold lastOf. rewrite length_app. simpl.
  rewrite app_nth2 by lia.
  replace (length arr + 1 - 1 - length arr)%nat with 0%nat by lia. reflexivity.
Qed.

Lemma sliceLast_snoc (k : nat) (arr : list R) (a : R) :
  (1 <= k)%nat ->
  exists kept, sliceLast k (arr ++ [a]) = kept ++ [a]
               /\ kept = sliceLast (k - 1) arr.
Proof.
  intros Hk. exists (sliceLast (k - 1) arr). split; [|reflexivity].
  unfold sliceLast. rewrite length_app. simpl.
  rewrite skipn_app.
  replace (length arr + 1 - k)%nat with (length arr - (k - 1))%nat by lia.
  replace (length arr - (k - 1) - length arr)%nat with 0%nat by lia.
  reflexivity.
Qed.

(** X11. A price tick appends the generated price and keeps the last
    [maxPoints] prices: the length is [min (length + 1) maxPoints], the last
    price is the generated one, the new series is an end of the old one
    extended, nothing is dropped below [maxPoints], and cash, shares, timer,
    phase and coins are untouched. *)
Theorem priceTick_window (d : TickDraws) (s : State) :
  let next := generatePrice (lastOf (prices s)) (mu s) (sigma s) (u_price d) in
  let s' := priceTick d s in
  length (prices s') = Nat.min (S (length (prices s))) (maxPoints s)
  /\ lastOf (prices s') = next
  /\ (exists dropped, prices s ++ [next] = dropped ++ prices s')
  /\ ((length (prices s) < maxPoints s)%nat -> prices s' = prices s ++ [next])
  /\ balance s' = balance s /\ portfolio s' = portfolio s
  /\ timeLeft s' = timeLeft s /\ phase s' = phase s
  /\ savedCoins s' = savedCoins s.
Proof.
  intros next s'.
  assert (Hp : prices s' = sliceLast (maxPoints s) (prices s ++ [next])).
  { unfold s', priceTick. destruct (Rltb (u_shock d) 0.3); reflexivity. }
  pose proof (maxPoints_pos s) as Hmax.
  split; [|split; [|split; [|split]]].
  - rewrite Hp. unfold sliceLast. rewrite length_skipn, length_app.
    cbn [length]. lia.
  - rewrite Hp. destruct (sliceLast_snoc (maxPoints s) (prices s) next Hmax)
      as (kept & -> & _). apply lastOf_snoc.
  - exists (firstn (length (prices s ++ [next]) - maxPoints s) (prices s ++ [next])).
    rewrite Hp. unfold sliceLast. symmetry. apply firstn_skipn.
  - intros Hlt. rewrite Hp. unfold sliceLast. rewrite length_app. simpl.
    replace (length (prices s) + 1 - maxPoints s)%nat with 0%nat by lia.
    reflexivity.
  - unfold s', priceTick. destruct (Rltb (u_shock d) 0.3); repeat split.
Qed.

(** X12. A price tick moves the drift by less than 1/1000 either way; when
    the shock draw is below 0.3 the volatility becomes the volatility draw
    over 25, which is below 0.04, and otherwise it stays. *)
Theorem priceTick_regime (d : TickDraws) (s : State) :
  unit_draw (u_mu d) -> unit_draw (u_shock d) -> unit_draw (u_sigma d) ->
  let s' := priceTick d s in
  - (1 / 1000) <= mu s' - mu s < 1 / 1000
  /\ (u_shock d < 0.3 -> sigma s' = u_sigma d / 25 /\ 0 <= sigma s' < 0.04)
  /\ (0.3 <= u_shock d -> sigma s' = sigma s).
Proof.
  intros Hmu Hshock Hsigma s'. unfold unit_draw in *. unfold s', priceTick.
  unfold Rltb. destruct (Rlt_dec (u_shock d) 0.3) as [Hlt|Hge]; simpl.
  - split; [lra|]. split; [intros _; lra | intros Hc; lra].
  - split; [lra|]. split; [intros Hc; lra | intros _; reflexivity].
Qed.

Lemma priceTick_regime_witness :
  unit_draw 0.75 /\ unit_draw 0.1 /\ unit_draw 0.5
  /\ sigma (priceTick (mkTickDraws 0.5 0.75 0.1 0.5) sampleRunning) = 0.5 / 25.
Proof.
  assert (H1 : unit_draw 0.75) by (unfold unit_draw; lra).
  assert (H2 : unit_draw 0.1) by (unfold unit_draw; lra).
  assert (H3 : unit_draw 0.5) by (unfold unit_draw; lra).
  split; [exact H1|]. split; [exact H2|]. split; [exact H3|].
  refine (proj1 (proj1 (proj2
    (priceTick_regime (mkTickDraws 0.5 0.75 0.1 0.5) sampleRunning H1 H2 H3)) _)).
  simpl. lra.
Defined.

(** ** The series of the candle chart *)

Lemma fillLoop_length fuel : forall p mu sigma rnd,
  length (fillLoop fuel p mu sigma rnd) = (length p + fuel)%nat.
Proof.
  induction fuel as [|fuel IH]; intros p mu sigma rnd; simpl; [lia|].
  rewrite IH, length_app. simpl. lia.
Qed.

Lemma fillLoop_prefix fuel : forall p mu sigma rnd,
  exists added, fillLoop fuel p mu sigma rnd = p ++ added.
Proof.
  induction fuel as [|fuel IH]; intros p mu sigma rnd; simpl.
  - exists []. rewrite app_nil_r. reflexivity.
  - destruct (IH (p ++ [generatePrice (lastOf p) mu sigma (rnd 0%nat)])
                 mu sigma (fun k => rnd (S k))) as (added & ->).
    eexists. rewrite <- app_assoc. reflexivity.
Qed.

(** X13. With the candle chart selected the fill effect leaves a series of
    at least 50 prices (exactly [max 50 length]); it only appends; it changes
    nothing for another chart or a series of 50 or more; and running it again
    changes nothing. *)
Theorem ensureCandleData_fills (rnd rnd' : nat -> R) (s : State) :
  let s' := ensureCandleData rnd s in
  (selectedChart s = "candle"%string ->
     length (prices s') = Nat.max CANDLE_INIT (length (prices s)))
  /\ (exists added, prices s' = prices s ++ added)
  /\ (selectedChart s <> "candle"%string \/ (CANDLE_INIT <= length (prices s))%nat ->
        s' = s)
  /\ ensureCandleData rnd' s' = s'.
Proof.
  intros s'. unfold s', ensureCandleData.
  destruct (selectedChart s =? "candle")%string eqn:Hc; cbn [andb].
  - destruct (Nat.ltb_spec (length (prices s)) CANDLE_INIT) as [Hlt|Hge].
    + cbn [prices setPrices selectedChart].
      split; [|split; [|split]].
      * intros _. rewrite fillLoop_length. lia.
      * apply fillLoop_prefix.
      * intros [Hne|Hlen]; [|lia].
        apply String.eqb_eq in Hc. contradiction.
      * rewrite Hc. cbn [andb].
        replace (length (fillLoop _ _ _ _ _) <? CANDLE_INIT)%nat with false;
          [reflexivity|].
        symmetry. apply Nat.ltb_ge. rewrite fillLoop_length. lia.
    + split; [intros _; lia|]. split; [exists []; rewrite app_nil_r; reflexivity|].
      split; [reflexivity|].
      rewrite Hc. cbn [andb].
      replace (length (prices s) <? CANDLE_INIT)%nat with false
        by (symmetry; apply Nat.ltb_ge; exact Hge).
      reflexivity.
  - split; [intros Heq; apply String.eqb_neq in Hc; contradiction|].
    split; [exists []; rewrite app_nil_r; reflexivity|].
    split; [reflexivity|]. rewrite Hc. reflexivity.
Qed.

(** ** What the reachable states keep: flags, timer, regime, series *)

Lemma SessionInv_initialState rnd : SessionInv (initialState rnd).
Proof.
  unfold SessionInv. cbn [initialClick running finished balance portfolio timeLeft
                          sigma prices initialState].
  rewrite generateInitialPrices_length.
  repeat split; try discriminate; try lra; try lia; unfold LINE_INIT; simpl; lia.
Qed.

Lemma SessionInv_priceTick d s :
  unit_draw (u_sigma d) -> SessionInv s -> SessionInv (priceTick d s).
Proof.
  intros Hu (Hw & Hr & Hf & Hst & Ht & Hs & Hl).
  assert (Hlen : (1 <= length (prices (priceTick d s)) <= 300)%nat).
  { assert (Hp : prices (priceTick d s)
                 = sliceLast (maxPoints s)
                     (prices s ++ [generatePrice (lastOf (prices s)) (mu s) (sigma s)
                                                 (u_price d)])).
    { unfold priceTick. destruct (Rltb (u_shock d) 0.3); reflexivity. }
    rewrite Hp. unfold sliceLast. rewrite length_skipn, length_app. cbn [length].
    assert (1 <= maxPoints s <= 300)%nat
      by (unfold maxPoints; destruct (selectedChart s =? "candle")%string; lia).
    lia. }
  unfold unit_draw in Hu.
  unfold SessionInv. split; [|split; [|split; [|split; [|split; [|split]]]]].
  - unfold priceTick. destruct (Rltb (u_shock d) 0.3); exact Hw.
  - unfold priceTick. destruct (Rltb (u_shock d) 0.3); exact Hr.
  - unfold priceTick. destruct (Rltb (u_shock d) 0.3); exact Hf.
  - unfold priceTick. destruct (Rltb (u_shock d) 0.3); exact Hst.
  - unfold priceTick. destruct (Rltb (u_shock d) 0.3); exact Ht.
  - unfold priceTick. destruct (Rltb (u_shock d) 0.3); simpl; lra.
  - exact Hlen.
Qed.

Lemma SessionInv_ensureCandleData rnd s :
  SessionInv s -> SessionInv (ensureCandleData rnd s).
Proof.
  intros H. pose proof H as (Hw & Hr & Hf & Hst & Ht & Hs & Hl). unfold ensureCandleData.
  destruct (selectedChart s =? "candle")%string; cbn [andb];
    [|exact H].
  destruct (Nat.ltb_spec (length (prices s)) CANDLE_INIT) as [Hlt|Hge];
    [|exact H].
  unfold SessionInv. cbn [initialClick running finished balance portfolio timeLeft
                          sigma prices setPrices].
  rewrite fillLoop_length. unfold CANDLE_INIT in *.
  split; [exact Hw|]. split; [exact Hr|]. split; [exact Hf|].
  split; [exact Hst|]. split; [exact Ht|]. split; [exact Hs | lia].
Qed.

Lemma SessionInv_countdownTick s : SessionInv s -> SessionInv (countdownTick s).
Proof.
  intros H. pose proof H as (Hw & Hr & Hf & Hst & Ht & Hs & Hl). unfold countdownTick.
  destruct (running s) eqn:Hrun; [|exact H].
  destruct (Hr eq_refl) as [Hi Hfin].
  unfold SessionInv. cbn [initialClick running finished balance portfolio timeLeft
                          sigma prices setTimeLeft].
  rewrite Hi, Hfin, Hrun.
  split; [discriminate|]. split; [auto|]. split; [discriminate|].
  split; [auto|]. split; [|split; assumption].
  destruct (Z.gtb_spec (timeLeft s) 0); lia.
Qed.

Lemma SessionInv_finishEffect s : SessionInv s -> SessionInv (finishEffect s).
Proof.
  intros H. pose proof H as (Hw & Hr & Hf & Hst & Ht & Hs & Hl).
  destruct (running s) eqn:Hrun;
    [|rewrite finishEffect_idle by (left; exact Hrun); exact H].
  destruct (Z.gtb_spec (timeLeft s) 0) as [Hpos|Hzero];
    [rewrite finishEffect_idle by (right; lia); exact H|].
  destruct (Hr eq_refl) as [Hi Hfin].
  rewrite finishEffect_fires by assumption. cbv zeta.
  unfold SessionInv.
  destruct (Rgtb _ 0);
    cbn [initialClick running finished balance portfolio timeLeft sigma prices
         setFinished setRunning setPortfolio setBalance setSavedCoins];
    rewrite Hi;
    (split; [discriminate|]); (split; [discriminate|]);
    (split; [intros _; repeat split; lia|]);
    (split; [auto|]);
    (split; [exact Ht|]); (split; [exact Hs | exact Hl]).
Qed.

Lemma SessionInv_handleClick e s : SessionInv s -> SessionInv (handleClick e s).
Proof.
  intros H. pose proof H as (Hw & Hr & Hf & Hst & Ht & Hs & Hl). unfold handleClick.
  destruct (showSettings s || showShop s || finished s) eqn:Hblock;
    [exact H|].
  apply orb_false_elim in Hblock as [_ Hfin]. cbv zeta.
  destruct (initialClick s) eqn:Hi; cbn [negb andb orb].
  - destruct (running s) eqn:Hrun; cbn [negb orb];
      [|exact H].
    destruct (Rgtb (clientX e - bounds_left e) (bounds_width e / 2)).
    + destruct (Rgeb (balance s) 10);
        [|exact H].
      unfold SessionInv.
      cbn [initialClick running finished balance portfolio timeLeft sigma prices
           createFloatingText setFloatingTexts setPortfolio setBalance].
      rewrite Hi, Hrun, Hfin.
      split; [discriminate|]. split; [auto|]. split; [discriminate|].
      split; [auto|]. split; [exact Ht|]. split; [exact Hs | exact Hl].
    + destruct (Rgtb (portfolio s) 0);
        [|exact H].
      unfold SessionInv.
      cbn [initialClick running finished balance portfolio timeLeft sigma prices
           createFloatingText setFloatingTexts setPortfolio setBalance].
      rewrite Hi, Hrun, Hfin.
      split; [discriminate|]. split; [auto|]. split; [discriminate|].
      split; [auto|]. split; [exact Ht|]. split; [exact Hs | exact Hl].
  - destruct (Rgtb (clientX e - bounds_left e) (bounds_width e / 2)).
    + unfold SessionInv.
      cbn [initialClick running finished balance portfolio timeLeft sigma prices
           setTimeLeft setRunning setInitialClick].
      rewrite Hfin.
      split; [discriminate|]. split; [auto|]. split; [discriminate|].
      split; [auto|]. split; [lia|]. split; [exact Hs | exact Hl].
    + rewrite orb_true_r. exact H.
Qed.

Lemma SessionInv_resetToHome rnd s : SessionInv (resetToHome rnd s).
Proof.
  unfold SessionInv, resetToHome.
  cbn [initialClick running finished balance portfolio timeLeft sigma prices
       setPrices setInitialClick setFinished setRunning setSigma setMu setTimeLeft
       setPortfolio setBalance].
  rewrite generateInitialPrices_length. unfold CANDLE_INIT, LINE_INIT.
  repeat split; try discriminate; try lra; try lia;
    destruct (selectedChart s =? "candle")%string; simpl; lia.
Qed.

Lemma SessionInv_handlePurchase item s :
  SessionInv s -> SessionInv (handlePurchase item s).
Proof.
  intros H. unfold handlePurchase.
  repeat match goal with
         | |- context [if ?b then _ else _] => destruct b
         end; exact H.
Qed.

Lemma reachable_SessionInv s : reachable s -> SessionInv s.
Proof.
  induction 1.
  - apply SessionInv_initialState.
  - apply SessionInv_priceTick; assumption.
  - apply SessionInv_ensureCandleData; assumption.
  - apply SessionInv_countdownTick; assumption.
  - apply SessionInv_finishEffect; assumption.
  - apply SessionInv_handleClick; assumption.
  - exact IHreachable.
  - apply SessionInv_resetToHome.
  - apply SessionInv_handlePurchase; assumption.
  - unfold applyTheme. destruct (negb _); exact IHreachable.
  - unfold toggleStat. destruct (negb _); exact IHreachable.
  - exact IHreachable.
  - exact IHreachable.
  - exact IHreachable.
  - exact IHreachable.
Qed.

(** ** What the reachable states keep: coins and unlockables *)

Lemma includes_In arr id : includes arr id = true <-> In id arr.
Proof.
  unfold includes. rewrite existsb_exists. split.
  - intros (y & Hin & Heq). apply String.eqb_eq in Heq. subst. exact Hin.
  - intros Hin. exists id. split; [exact Hin | apply String.eqb_refl].
Qed.

Lemma includes_not_In arr id : includes arr id = false <-> ~ In id arr.
Proof.
  rewrite <- includes_In. destruct (includes arr id); split; intros H;
    (discriminate || reflexivity || (exfalso; apply H; reflexivity) || auto).
Qed.

(** The items on sale, one by one. *)
Lemma SHOP_ITEMS_eq :
  SHOP_ITEMS =
  [ mkItem "dark-purple" 5 "theme"; mkItem "dark-green" 5 "theme";
    mkItem "light-moss" 5 "theme"; mkItem "candle" 25 "chart";
    mkItem "sma_short" 5 "stat"; mkItem "ema_mid" 5 "stat";
    mkItem "sma_long" 5 "stat" ].
Proof.
  unfold SHOP_ITEMS, THEMES, CHART_MODELS, STATS_ITEMS. cbn [filter item_price].
  rewrite (proj2 (Rgtb_false_iff 0 0)) by lra.
  rewrite (proj2 (Rgtb_true_iff 5 0)) by lra.
  rewrite (proj2 (Rgtb_true_iff 25 0)) by lra.
  reflexivity.
Qed.

Lemma SHOP_ITEMS_tables item :
  In item SHOP_ITEMS ->
  (item_type item = "theme"%string -> In item THEMES)
  /\ (item_type item = "chart"%string -> In item CHART_MODELS)
  /\ (item_type item = "stat"%string -> In item STATS_ITEMS).
Proof.
  rewrite SHOP_ITEMS_eq. unfold THEMES, CHART_MODELS, STATS_ITEMS.
  intros Hin. simpl in Hin.
  repeat (destruct Hin as [<-|Hin]; [simpl; repeat split; intros Ht;
                                     (discriminate || auto 10)|]).
  contradiction.
Qed.

Lemma ids_of_snoc table ids item :
  ids_of table ids -> In item table -> ids_of table (ids ++ [item_id item]).
Proof.
  intros Hids Hin id Hid. apply in_app_or in Hid as [Hid|[<-|[]]].
  - apply Hids. exact Hid.
  - exists item. split; [exact Hin | reflexivity].
Qed.

Lemma NoDup_snoc (ids : list string) id :
  NoDup ids -> ~ In id ids -> NoDup (ids ++ [id]).
Proof.
  intros Hnd Hnin. apply NoDup_app.
  - exact Hnd.
  - constructor; [intros [] | constructor].
  - intros y Hy [<-|[]]. exact (Hnin Hy).
Qed.

Lemma EconomyInv_initialState rnd : EconomyInv (initialState rnd).
Proof.
  unfold EconomyInv, initialState, ids_of, THEMES, CHART_MODELS. simpl.
  repeat split; try lra; auto; try (intros _ []);
    try (constructor; [intros []|constructor]); try constructor;
    try (intros id [<-|[]]; eexists; split; [left; reflexivity | reflexivity]);
    try (intros id []).
Qed.

Lemma EconomyInv_finishEffect s : EconomyInv s -> EconomyInv (finishEffect s).
Proof.
  intros H. pose proof H as (Hc & Hrest). unfold finishEffect.
  destruct (negb (running s) || (timeLeft s >? 0)%Z); [exact H|].
  cbv zeta. destruct (Rgtb _ 0) eqn:Hp; [|exact H].
  apply Rgtb_true_iff in Hp.
  split; [|exact Hrest]. simpl. lra.
Qed.

Lemma EconomyInv_handleClick e s : EconomyInv s -> EconomyInv (handleClick e s).
Proof.
  intros H.
  destruct (handleClick_cases e s)
    as [-> | [-> | [(_ & _ & ->) | (_ & _ & ->)]]]; exact H.
Qed.

Lemma EconomyInv_handlePurchase item s :
  In item SHOP_ITEMS -> EconomyInv s -> EconomyInv (handlePurchase item s).
Proof.
  intros Hshop H.
  pose proof H as (Hc & Hdef & Hline & Hsel & Hchart & Hen & Hth & Hch & Hst
                   & Hn1 & Hn2 & Hn3 & Hn4).
  destruct (SHOP_ITEMS_tables item Hshop) as (Htheme & Hcharts & Hstats).
  unfold handlePurchase.
  destruct (item_type item =? "theme")%string eqn:Ht.
  - apply String.eqb_eq in Ht.
    destruct (includes (unlockedThemes s) (item_id item)) eqn:Hin; [exact H|].
    destruct (Rgeb (savedCoins s) (item_price item)) eqn:Hcoins; [|exact H].
    apply Rgeb_true_iff in Hcoins. apply includes_not_In in Hin.
    unfold EconomyInv. simpl.
    repeat split; try assumption; try lra; try (apply in_or_app; left; assumption).
    + apply ids_of_snoc; auto.
    + apply NoDup_snoc; assumption.
  - destruct (item_type item =? "chart")%string eqn:Hc'.
    + apply String.eqb_eq in Hc'.
      destruct (includes (unlockedCharts s) (item_id item)) eqn:Hin; [exact H|].
      destruct (Rgeb (savedCoins s) (item_price item)) eqn:Hcoins; [|exact H].
      apply Rgeb_true_iff in Hcoins. apply includes_not_In in Hin.
      unfold EconomyInv. simpl.
      repeat split; try assumption; try lra; try (apply in_or_app; left; assumption).
      * apply ids_of_snoc; auto.
      * apply NoDup_snoc; assumption.
    + destruct (item_type item =? "stat")%string eqn:Hs'; [|exact H].
      apply String.eqb_eq in Hs'.
      destruct (includes (unlockedStats s) (item_id item)) eqn:Hin; [exact H|].
      destruct (Rgeb (savedCoins s) (item_price item)) eqn:Hcoins; [|exact H].
      apply Rgeb_true_iff in Hcoins. apply includes_not_In in Hin.
      unfold EconomyInv. simpl.
      repeat split; try assumption; try lra; try (apply in_or_app; left; assumption).
      * intros id Hid. apply in_or_app. left. apply Hen. exact Hid.
      * apply ids_of_snoc; auto.
      * apply NoDup_snoc; assumption.
Qed.

Lemma EconomyInv_applyTheme id s : EconomyInv s -> EconomyInv (applyTheme id s).
Proof.
  intros H.
  pose proof H as (Hc & Hdef & Hline & Hsel & Hrest).
  unfold applyTheme.
  destruct (includes (unlockedThemes s) id) eqn:Hin; cbn [negb]; [|exact H].
  apply includes_In in Hin.
  split; [exact Hc|]. split; [exact Hdef|]. split; [exact Hline|].
  split; [exact Hin | exact Hrest].
Qed.

Lemma EconomyInv_toggleStat id s : EconomyInv s -> EconomyInv (toggleStat id s).
Proof.
  intros H.
  pose proof H as (Hc & Hdef & Hline & Hsel & Hchart & Hen & Hth & Hch & Hst
                   & Hn1 & Hn2 & Hn3 & Hn4).
  unfold toggleStat.
  destruct (includes (unlockedStats s) id) eqn:Hin; cbn [negb]; [|exact H].
  apply includes_In in Hin.
  unfold EconomyInv. simpl.
  repeat split; try assumption.
  - destruct (includes (enabledStats s) id).
    + intros y Hy. apply filter_In in Hy as [Hy _]. apply Hen. exact Hy.
    + intros y Hy. apply in_app_or in Hy as [Hy|[<-|[]]]; [apply Hen|]; assumption.
  - destruct (includes (enabledStats s) id) eqn:Hen'.
    + apply NoDup_filter. exact Hn4.
    + apply NoDup_snoc; [exact Hn4|]. apply includes_not_In. exact Hen'.
Qed.

Lemma reachable_EconomyInv s : reachable s -> EconomyInv s.
Proof.
  induction 1.
  - apply EconomyInv_initialState.
  - unfold priceTick. destruct (Rltb _ _); exact IHreachable.
  - unfold ensureCandleData. destruct (_ && _); exact IHreachable.
  - unfold countdownTick. destruct (running s); exact IHreachable.
  - apply EconomyInv_finishEffect; assumption.
  - apply EconomyInv_handleClick; assumption.
  - exact IHreachable.
  - exact IHreachable.
  - apply EconomyInv_handlePurchase; assumption.
  - apply EconomyInv_applyTheme; assumption.
  - apply EconomyInv_toggleStat; assumption.
  - destruct IHreachable as (Hc & Hdef & Hline & Hsel & Hchart & Hrest).
    split; [exact Hc|]. split; [exact Hdef|]. split; [exact Hline|].
    split; [exact Hsel|]. split; [assumption | exact Hrest].
  - exact IHreachable.
  - exact IHreachable.
  - exact IHreachable.
Qed.

(** ** The length of a session *)

Lemma countdownTick_iter (s : State) (n : nat) :
  running s = true -> (0 <= timeLeft s)%Z ->
  Nat.iter n countdownTick s
  = setTimeLeft (Z.max 0 (timeLeft s - Z.of_nat n)) s.
Proof.
  intros Hrun Ht. induction n as [|n IH].
  - simpl. rewrite Z.sub_0_r, Z.max_r by lia. destruct s; reflexivity.
  - change (Nat.iter (S n) countdownTick s)
      with (countdownTick (Nat.iter n countdownTick s)).
    rewrite IH. unfold countdownTick.
    cbn [running timeLeft setTimeLeft]. rewrite Hrun.
    destruct (Z.gtb_spec (Z.max 0 (timeLeft s - Z.of_nat n)) 0) as [Hpos|Hzero].
    + replace (Z.max 0 (timeLeft s - Z.of_nat n) - 1)%Z
        with (Z.max 0 (timeLeft s - Z.of_nat (S n))) by lia.
      reflexivity.
    + replace (Z.max 0 (timeLeft s - Z.of_nat (S n))) with 0%Z by lia.
      reflexivity.
Qed.

(** X14. The first click on the right half, with no popup open, starts
    the session without trading: the phase is [Running], the timer 60, cash,
    shares and floating texts as before.  For fewer than 60 countdown ticks
    the timer shows [60 - n] and the finish effect does nothing; after 60 the
    finish effect ends the session. *)
Theorem session_lasts_sixty_ticks (s : State) (e : ClickEvent) :
  showSettings s = false -> showShop s = false -> finished s = false ->
  initialClick s = false -> rightHalf e = true ->
  let s1 := handleClick e s in
  phase s1 = Running /\ timeLeft s1 = 60%Z
  /\ balance s1 = balance s /\ portfolio s1 = portfolio s
  /\ floatingTexts s1 = floatingTexts s
  /\ (forall n, (n < 60)%nat ->
        timeLeft (Nat.iter n countdownTick s1) = (60 - Z.of_nat n)%Z
        /\ finishEffect (Nat.iter n countdownTick s1) = Nat.iter n countdownTick s1)
  /\ phase (finishEffect (Nat.iter 60 countdownTick s1)) = Finished.
Proof.
  intros Hset Hshop Hfin Hi Hright s1.
  assert (Hs1 : s1 = setTimeLeft 60 (setRunning true (setInitialClick true s)))
    by (apply handleClick_start; assumption).
  assert (Hrun : running s1 = true) by (rewrite Hs1; reflexivity).
  assert (Ht : timeLeft s1 = 60%Z) by (rewrite Hs1; reflexivity).
  split; [rewrite Hs1; unfold phase; simpl; rewrite Hfin; reflexivity|].
  split; [exact Ht|].
  split; [rewrite Hs1; reflexivity|]. split; [rewrite Hs1; reflexivity|].
  split; [rewrite Hs1; reflexivity|]. split.
  - intros n Hn. rewrite countdownTick_iter by (assumption || lia).
    cbn [timeLeft setTimeLeft]. rewrite Ht. split; [lia|].
    apply finishEffect_idle. right. cbn [timeLeft setTimeLeft]. lia.
  - rewrite countdownTick_iter by (assumption || lia). rewrite Ht.
    apply phase_Finished.
    rewrite finishEffect_fires by (exact Hrun || (cbn [timeLeft setTimeLeft]; lia)).
    cbv zeta. destruct (Rgtb _ 0); reflexivity.
Qed.

Lemma session_lasts_sixty_ticks_witness :
  showSettings (initialState rnd0) = false /\ showShop (initialState rnd0) = false
  /\ finished (initialState rnd0) = false /\ initialClick (initialState rnd0) = false
  /\ rightHalf rightClick = true
  /\ phase (finishEffect (Nat.iter 60 countdownTick
                            (handleClick rightClick (initialState rnd0))))
     = Finished.
Proof.
  split; [reflexivity|]. split; [reflexivity|]. split; [reflexivity|].
  split; [reflexivity|]. split; [exact rightHalf_rightClick|].
  exact (proj2 (proj2 (proj2 (proj2 (proj2 (proj2
    (session_lasts_sixty_ticks (initialState rnd0) rightClick
       eq_refl eq_refl eq_refl eq_refl rightHalf_rightClick))))))).
Defined.

(** ** Flags and bounds of the reachable states *)

(** X15. In every reachable state the three flags stand for one phase:
    waiting means no start gesture yet, running means [running], finished
    means [finished]; while waiting the cash is 100, the shares 0 and the
    timer 60; when finished the shares are 0 and the timer 0. *)
Theorem session_flags (s : State) :
  reachable s ->
  (phase s = WaitingToStart <-> initialClick s = false)
  /\ (phase s = Running <-> running s = true)
  /\ (phase s = Finished <-> finished s = true)
  /\ (phase s = WaitingToStart ->
        balance s = 100 /\ portfolio s = 0 /\ timeLeft s = 60%Z)
  /\ (phase s = Finished -> portfolio s = 0 /\ timeLeft s = 0%Z).
Proof.
  intros Hreach.
  destruct (reachable_SessionInv s Hreach) as (Hw & Hr & Hf & Hst & _).
  assert (Hwait : phase s = WaitingToStart <-> initialClick s = false).
  { rewrite phase_WaitingToStart. split.
    - intros [Hfin [Hrun|Hi]]; [|exact Hi].
      destruct (initialClick s) eqn:Hi; [|reflexivity].
      destruct (Hst eq_refl); congruence.
    - intros Hi. destruct (Hw Hi) as (Hrun & Hfin & _). auto. }
  split; [exact Hwait|]. split; [|split; [|split]].
  - rewrite phase_Running. split; [intros (_ & Hrun & _); exact Hrun|].
    intros Hrun. destruct (Hr Hrun) as [Hi Hfin]. auto.
  - apply phase_Finished.
  - intros Hph. apply Hwait in Hph. destruct (Hw Hph) as (_ & _ & Hb & Hp & Ht).
    auto.
  - intros Hph. apply phase_Finished in Hph. destruct (Hf Hph) as (_ & _ & Hp & Ht).
    auto.
Qed.

Lemma session_flags_witness :
  reachable started /\ (phase started = Running <-> running started = true).
Proof.
  split; [exact reachable_started|].
  exact (proj1 (proj2 (session_flags started reachable_started))).
Defined.

(** X16. In every reachable state the timer is between 0 and 60, the
    volatility between 0 and 0.1, and the series holds between 1 and 300
    prices. *)
Theorem session_bounds (s : State) :
  reachable s ->
  (0 <= timeLeft s <= 60)%Z
  /\ 0 <= sigma s <= 0.1
  /\ (1 <= length (prices s) <= 300)%nat.
Proof.
  intros Hreach.
  destruct (reachable_SessionInv s Hreach) as (_ & _ & _ & _ & Ht & Hs & Hl).
  split; [exact Ht|]. split; [exact Hs | exact Hl].
Qed.

Lemma session_bounds_witness :
  reachable started /\ (0 <= timeLeft started <= 60)%Z.
Proof.
  split; [exact reachable_started|].
  exact (proj1 (session_bounds started reachable_started)).
Defined.

(** ** Coins and unlockables of the reachable states *)

(** X17. In every reachable state the coins are at least 0. *)
Theorem coins_never_negative (s : State) :
  reachable s -> 0 <= savedCoins s.
Proof. intros Hreach. apply (reachable_EconomyInv s Hreach). Qed.

Lemma coins_never_negative_witness :
  reachable holding /\ 0 <= savedCoins holding.
Proof.
  assert (Hreach : reachable holding)
    by apply reach_handleClick, reachable_started.
  split; [exact Hreach|].
  exact (coins_never_negative holding Hreach).
Defined.

Lemma lookupItem_ids_of table ids id :
  ids_of table ids -> In id ids -> lookupItem table id <> None.
Proof.
  intros Hids Hin Hnone. destruct (Hids id Hin) as (item & Hitem & Hid).
  unfold lookupItem in Hnone.
  pose proof (find_none _ _ Hnone item Hitem) as Hfalse. simpl in Hfalse.
  rewrite Hid, String.eqb_refl in Hfalse. discriminate.
Qed.

(** X18. In every reachable state the selected theme and chart are
    unlocked, [THEMES[selectedThemeId]] is defined, every unlocked theme and
    chart id is a key of its table, and the selected chart is ["line"] or
    ["candle"]. *)
Theorem selections_resolve (s : State) :
  reachable s ->
  In (selectedThemeId s) (unlockedThemes s)
  /\ In (selectedChart s) (unlockedCharts s)
  /\ lookupItem THEMES (selectedThemeId s) <> None
  /\ (forall id, In id (unlockedThemes s) -> lookupItem THEMES id <> None)
  /\ (forall id, In id (unlockedCharts s) -> lookupItem CHART_MODELS id <> None)
  /\ (selectedChart s = "line"%string \/ selectedChart s = "candle"%string).
Proof.
  intros Hreach.
  destruct (reachable_EconomyInv s Hreach)
    as (_ & _ & _ & Hsel & Hchart & _ & Hth & Hch & _).
  split; [exact Hsel|]. split; [exact Hchart|].
  split; [apply (lookupItem_ids_of THEMES _ _ Hth Hsel)|].
  split; [intros id Hid; apply (lookupItem_ids_of THEMES _ _ Hth Hid)|].
  split; [intros id Hid; apply (lookupItem_ids_of CHART_MODELS _ _ Hch Hid)|].
  destruct (Hch _ Hchart) as (item & Hitem & Hid).
  unfold CHART_MODELS in Hitem. simpl in Hitem.
  destruct Hitem as [<-|[<-|[]]]; simpl in Hid; auto.
Qed.

Lemma selections_resolve_witness :
  reachable started /\ lookupItem THEMES (selectedThemeId started) <> None.
Proof.
  split; [exact reachable_started|].
  exact (proj1 (proj2 (proj2 (selections_resolve started reachable_started)))).
Defined.

(** X19. In every reachable state no id is unlocked or enabled twice,
    every enabled indicator is unlocked, and the default theme and the line
    chart are unlocked. *)
Theorem unlocks_without_duplicates (s : State) :
  reachable s ->
  NoDup (unlockedThemes s) /\ NoDup (unlockedCharts s)
  /\ NoDup (unlockedStats s) /\ NoDup (enabledStats s)
  /\ incl (enabledStats s) (unlockedStats s)
  /\ In "dark-default"%string (unlockedThemes s)
  /\ In "line"%string (unlockedCharts s).
Proof.
  intros Hreach.
  destruct (reachable_EconomyInv s Hreach)
    as (_ & Hdef & Hline & _ & _ & Hen & _ & _ & _ & Hn1 & Hn2 & Hn3 & Hn4).
  repeat split; assumption.
Qed.

Lemma unlocks_without_duplicates_witness :
  reachable started /\ NoDup (unlockedThemes started).
Proof.
  split; [exact reachable_started|].
  exact (proj1 (unlocks_without_duplicates started reachable_started)).
Defined.

(** ** The value of the position *)




(** ** Reset and the economy *)

(** X22. Reset leaves coins, unlocked and selected items, enabled
    indicators, buy percentage, popups and floating texts as they were, and a
    reset after a reset is the last reset alone. *)
Theorem reset_keeps_economy (rnd rnd' : nat -> R) (s : State) :
  let s' := resetToHome rnd s in
  savedCoins s' = savedCoins s
  /\ unlockedThemes s' = unlockedThemes s /\ selectedThemeId s' = selectedThemeId s
  /\ unlockedCharts s' = unlockedCharts s /\ selectedChart s' = selectedChart s
  /\ unlockedStats s' = unlockedStats s /\ enabledStats s' = enabledStats s
  /\ purchasePercent s' = purchasePercent s
  /\ showSettings s' = showSettings s /\ showShop s' = showShop s
  /\ floatingTexts s' = floatingTexts s
  /\ resetToHome rnd (resetToHome rnd' s) = s'.
Proof. cbv zeta. repeat split. Qed.

(** ** Purchases *)

Lemma handlePurchase_owned item s :
  owned item s = true -> handlePurchase item s = s.
Proof.
  intros Hown. unfold owned in Hown. unfold handlePurchase.
  destruct (item_type item =? "theme")%string eqn:Ht.
  - apply String.eqb_eq in Ht. rewrite Ht in Hown. simpl in Hown.
    rewrite !orb_false_r in Hown. rewrite Hown. reflexivity.
  - destruct (item_type item =? "chart")%string eqn:Hc.
    + apply String.eqb_eq in Hc. rewrite Hc in Hown. simpl in Hown.
      rewrite !orb_false_r in Hown. rewrite Hown. reflexivity.
    + destruct (item_type item =? "stat")%string; [|reflexivity].
      simpl in Hown. rewrite Hown. reflexivity.
Qed.

(** A purchase that changes the state: the item was not owned, its type is
    one of the three, the coins cover the price, and the item is owned
    afterwards. *)
Lemma handlePurchase_change item s :
  handlePurchase item s <> s ->
  owned item s = false /\ item_price item <= savedCoins s
  /\ (item_type item = "theme" \/ item_type item = "chart"
      \/ item_type item = "stat")%string
  /\ owned item (handlePurchase item s) = true.
Proof.
  unfold handlePurchase, owned.
  destruct (item_type item =? "theme")%string eqn:Ht.
  - apply String.eqb_eq in Ht. rewrite Ht. simpl.
    destruct (includes (unlockedThemes s) (item_id item)); [intros H; contradiction|].
    destruct (Rgeb (savedCoins s) (item_price item)) eqn:Hc; [|intros H; contradiction].
    apply Rgeb_true_iff in Hc. intros _. simpl. rewrite includes_snoc. simpl. repeat split; auto.
  - destruct (item_type item =? "chart")%string eqn:Hch.
    + apply String.eqb_eq in Hch. rewrite Hch. simpl.
      destruct (includes (unlockedCharts s) (item_id item)); [intros H; contradiction|].
      destruct (Rgeb (savedCoins s) (item_price item)) eqn:Hc;
        [|intros H; contradiction].
      apply Rgeb_true_iff in Hc. intros _. simpl. rewrite includes_snoc. simpl. repeat split; auto.
    + destruct (item_type item =? "stat")%string eqn:Hs; [|intros H; contradiction].
      apply String.eqb_eq in Hs. simpl.
      destruct (includes (unlockedStats s) (item_id item)); [intros H; contradiction|].
      destruct (Rgeb (savedCoins s) (item_price item)) eqn:Hc;
        [|intros H; contradiction].
      apply Rgeb_true_iff in Hc. intros _. simpl. rewrite includes_snoc. simpl. repeat split; auto.
Qed.

(** X23. A purchase changes the state exactly when the item is not owned,
    its type is theme, chart or stat, and the coins cover the price; it then
    makes the item owned and takes the price from the coins; buying the same
    item again changes nothing; and a purchase never touches cash, shares,
    series, timer or phase. *)
Theorem purchase_succeeds_iff (item : Item) (s : State) :
  let s' := handlePurchase item s in
  (s' <> s <->
     owned item s = false /\ item_price item <= savedCoins s
     /\ (item_type item = "theme" \/ item_type item = "chart"
         \/ item_type item = "stat")%string)
  /\ (s' <> s -> owned item s' = true
                 /\ savedCoins s' = savedCoins s - item_price item)
  /\ handlePurchase item s' = s'
  /\ balance s' = balance s /\ portfolio s' = portfolio s
  /\ prices s' = prices s /\ timeLeft s' = timeLeft s /\ phase s' = phase s.
Proof.
  intros s'. split; [|split; [|split]].
  - split.
    + intros Hne. destruct (handlePurchase_change item s Hne) as (H1 & H2 & H3 & _).
      auto.
    + intros (Hown & Hcoins & Htype) Heq. unfold owned in Hown.
      apply Rgeb_true_iff in Hcoins.
      unfold s', handlePurchase in Heq.
      destruct Htype as [Ht|[Ht|Ht]]; rewrite Ht in Heq, Hown; simpl in Heq, Hown;
        rewrite ?orb_false_r in Hown; rewrite Hown, Hcoins in Heq.
      * apply (f_equal unlockedThemes) in Heq. simpl in Heq.
        exact (snoc_neq _ _ Heq).
      * apply (f_equal unlockedCharts) in Heq. simpl in Heq.
        exact (snoc_neq _ _ Heq).
      * apply (f_equal unlockedStats) in Heq. simpl in Heq.
        exact (snoc_neq _ _ Heq).
  - intros Hne. destruct (handlePurchase_change item s Hne) as (_ & _ & _ & Hown).
    split; [exact Hown|].
    revert Hne. unfold s', handlePurchase.
    repeat match goal with
           | |- context [if ?b then _ else _] => destruct b
           end; intros Hne; try contradiction; reflexivity.
  - destruct (owned item s') eqn:Hown; [apply handlePurchase_owned; exact Hown|].
    assert (Heq : s' = s).
    { destruct (owned item s) eqn:Hown0.
      - apply handlePurchase_owned. exact Hown0.
      - unfold s' in *. revert Hown. unfold handlePurchase, owned.
        destruct (item_type item =? "theme")%string eqn:Ht.
        + apply String.eqb_eq in Ht. rewrite Ht. simpl.
          destruct (includes (unlockedThemes s) (item_id item)); [reflexivity|].
          destruct (Rgeb _ _); [|reflexivity].
          simpl. rewrite includes_snoc. discriminate.
        + destruct (item_type item =? "chart")%string eqn:Hch.
          * apply String.eqb_eq in Hch. rewrite Hch. simpl.
            destruct (includes (unlockedCharts s) (item_id item)); [reflexivity|].
            destruct (Rgeb _ _); [|reflexivity].
            simpl. rewrite includes_snoc. discriminate.
          * destruct (item_type item =? "stat")%string eqn:Hs; [|reflexivity].
            simpl.
            destruct (includes (unlockedStats s) (item_id item)); [reflexivity|].
            destruct (Rgeb _ _); [|reflexivity].
            simpl. rewrite includes_snoc. discriminate. }
    rewrite Heq. exact Heq.
  - unfold s', handlePurchase.
    repeat match goal with
           | |- context [if ?b then _ else _] => destruct b
           end; repeat split.
Qed.

(** ** Indicator toggles *)

Lemma includes_filter_out arr id :
  includes (filter (fun st => negb (st =? id)%string) arr) id = false.
Proof.
  apply includes_not_In. intros Hin. apply filter_In in Hin as [_ Hneq].
  rewrite String.eqb_refl in Hneq. discriminate.
Qed.

Lemma filter_out_absent arr id :
  includes arr id = false ->
  filter (fun st => negb (st =? id)%string) (arr ++ [id]) = arr.
Proof.
  intros Hnot. apply includes_not_In in Hnot.
  rewrite filter_app. simpl. rewrite String.eqb_refl. simpl. rewrite app_nil_r.
  induction arr as [|y arr IH]; [reflexivity|].
  simpl. destruct (String.eqb_spec y id) as [->|Hne].
  - exfalso. apply Hnot. left. reflexivity.
  - simpl. f_equal. apply IH. intros Hin. apply Hnot. right. exact Hin.
Qed.

(** X24. [toggleStat] does nothing for a locked indicator; for an
    unlocked one it flips whether the indicator is enabled and leaves the
    others as they were; and toggling twice an unlocked indicator that was
    off gives the state back. *)
Theorem toggleStat_flips (id : string) (s : State) :
  (includes (unlockedStats s) id = false -> toggleStat id s = s)
  /\ (includes (unlockedStats s) id = true ->
        includes (enabledStats (toggleStat id s)) id
        = negb (includes (enabledStats s) id))
  /\ (forall other, other <> id ->
        includes (enabledStats (toggleStat id s)) other
        = includes (enabledStats s) other)
  /\ (includes (unlockedStats s) id = true ->
      includes (enabledStats s) id = false ->
        toggleStat id (toggleStat id s) = s).
Proof.
  split; [|split; [|split]].
  - intros Hlocked. unfold toggleStat. rewrite Hlocked. reflexivity.
  - intros Hun. unfold toggleStat. rewrite Hun. cbn [negb].
    destruct (includes (enabledStats s) id) eqn:Hen; cbn [enabledStats setEnabledStats negb].
    + apply includes_filter_out.
    + apply includes_snoc.
  - intros other Hne. unfold toggleStat.
    destruct (includes (unlockedStats s) id); cbn [negb]; [|reflexivity].
    destruct (includes (enabledStats s) id); cbn [enabledStats setEnabledStats].
    + destruct (includes (enabledStats s) other) eqn:Ho.
      * apply includes_In. apply includes_In in Ho. apply filter_In.
        split; [exact Ho|]. apply negb_true_iff, String.eqb_neq. exact Hne.
      * apply includes_not_In. apply includes_not_In in Ho.
        intros Hin. apply filter_In in Hin as [Hin _]. exact (Ho Hin).
    + unfold includes. rewrite existsb_app. simpl.
      replace (other =? id)%string with false
        by (symmetry; apply String.eqb_neq; exact Hne).
      rewrite !orb_false_r. reflexivity.
  - intros Hun Hen. unfold toggleStat. rewrite Hun. cbn [negb]. rewrite Hen.
    cbn [unlockedStats enabledStats setEnabledStats]. rewrite Hun. cbn [negb].
    rewrite includes_snoc, filter_out_absent by exact Hen.
    destruct s; reflexivity.
Qed.

(** ** The datasets of the line chart *)

Lemma sma_length (series : list R) (window : nat) :
  (1 <= window)%nat ->
  length (sma series window)
  = if (length series <? window)%nat then 0%nat
    else (length series - window + 1)%nat.
Proof.
  intros Hw. destruct (Nat.ltb_spec (length series) window) as [Hlt|Hge].
  - unfold sma. replace (length series <? window)%nat with true
      by (symmetry; apply Nat.ltb_lt; exact Hlt). reflexivity.
  - rewrite sma_by_running_sum by lia. rewrite length_map, length_seq. reflexivity.
Qed.

Lemma padNull_length (n : nat) (arr : list R) :
  length (padNull n arr) = (n + length arr)%nat.
Proof. unfold padNull. rewrite length_app, repeat_length, length_map. reflexivity. Qed.

Lemma padded_sma_length (series : list R) (window : nat) :
  (1 <= window)%nat ->
  length (padNull (length series - length (sma series window)) (sma series window))
  = length series.
Proof.
  intros Hw. rewrite padNull_length, sma_length by exact Hw.
  destruct (Nat.ltb_spec (length series) window); lia.
Qed.

(** X25. Every dataset of the line chart has as many points as the price
    series; there are between one and four datasets and the first is the
    price series itself. *)
Theorem lineDatasets_aligned (s : State) (fg : string) :
  Forall (fun ds => length (ds_data ds) = length (prices s)) (lineDatasetsOf s fg)
  /\ (1 <= length (lineDatasetsOf s fg) <= 4)%nat
  /\ nth_error (lineDatasetsOf s fg) 0 = Some (mkDataset (map Some (prices s)) fg 2 0).
Proof.
  unfold lineDatasetsOf, lineDatasets, smaShortArr, smaLongArr, emaArr.
  assert (H0 : length (map Some (prices s)) = length (prices s)) by apply length_map.
  assert (H1 : length (padNull (length (prices s) - length (sma (prices s) 5))
                               (sma (prices s) 5)) = length (prices s))
    by (apply padded_sma_length; lia).
  assert (H2 : length (map Some (ema (prices s) 12)) = length (prices s)).
  { rewrite length_map. apply (ema_values (prices s) 12). }
  assert (H3 : length (padNull (length (prices s) - length (sma (prices s) 20))
                               (sma (prices s) 20)) = length (prices s))
    by (apply padded_sma_length; lia).
  cbv zeta.
  destruct (includes (enabledStats s) "sma_short"
            && negb (length (sma (prices s) 5) =? 0)%nat);
    destruct (includes (enabledStats s) "ema_mid"
              && negb (length (ema (prices s) 12) =? 0)%nat);
    destruct (includes (enabledStats s) "sma_long"
              && negb (length (sma (prices s) 20) =? 0)%nat);
    cbn [app length nth_error];
    (split; [repeat constructor; assumption | split; [lia | reflexivity]]).
Qed.

Lemma nth_padNull (n : nat) (arr : list R) (j : nat) :
  nth j (padNull n arr) None
  = if (j <? n)%nat then None else nth (j - n) (map Some arr) None.
Proof.
  unfold padNull. destruct (Nat.ltb_spec j n) as [Hlt|Hge].
  - rewrite app_nth1 by (rewrite repeat_length; exact Hlt).
    apply nth_repeat.
  - rewrite app_nth2 by (rewrite repeat_length; exact Hge).
    rewrite repeat_length. reflexivity.
Qed.

(** X26. In the padded SMA dataset the first [window - 1] points are
    [null], and the point at a later index [j] is the value that [sma]
    pushed when its loop was at [j]: the running sum of that step divided by
    the window. *)
Theorem padded_sma_is_causal (series : list R) (window j : nat) :
  (1 <= window <= length series)%nat -> (j < length series)%nat ->
  nth j (padNull (length series - length (sma series window)) (sma series window))
      None
  = if (j <? window - 1)%nat then None
    else Some (running_sum series window (j + 1 - window) / INR window).
Proof.
  intros [Hw Hlen] Hj. rewrite nth_padNull, sma_length by exact Hw.
  replace (length series <? window)%nat with false
    by (symmetry; apply Nat.ltb_ge; exact Hlen).
  replace (length series - (length series - window + 1))%nat
    with (window - 1)%nat by lia.
  destruct (Nat.ltb_spec j (window - 1)) as [Hlt|Hge]; [reflexivity|].
  rewrite sma_by_running_sum by lia. rewrite map_map.
  rewrite nth_map_seq by lia.
  replace (j - (window - 1))%nat with (j + 1 - window)%nat by lia.
  reflexivity.
Qed.

Lemma padded_sma_is_causal_witness :
  (1 <= 2 <= length [1; 2; 4; 8])%nat /\ (3 < length [1; 2; 4; 8])%nat
  /\ nth 3 (padNull (length [1; 2; 4; 8] - length (sma [1; 2; 4; 8] 2))
                    (sma [1; 2; 4; 8] 2)) None
     = Some (running_sum [1; 2; 4; 8] 2 2 / INR 2).
Proof.
  assert (Hw : (1 <= 2 <= length [1; 2; 4; 8])%nat) by (simpl; lia).
  assert (Hj : (3 < length [1; 2; 4; 8])%nat) by (simpl; lia).
  split; [exact Hw|]. split; [exact Hj|].
  exact (padded_sma_is_causal [1; 2; 4; 8] 2 3 Hw Hj).
Defined.





(** ** Selling twice *)

(** X27. After a click on the selling side a second one changes
    nothing. *)
Theorem sell_is_idempotent (e e' : ClickEvent) (s : State) :
  rightHalf e = false -> rightHalf e' = false ->
  handleClick e' (handleClick e s) = handleClick e s.
Proof.
  intros He He'. unfold rightHalf in He, He'. unfold handleClick.
  rewrite He. cbv zeta. rewrite andb_false_r.
  destruct (showSettings s || showShop s || finished s) eqn:Hblock.
  - rewrite Hblock. reflexivity.
  - destruct (negb (running s) || negb (initialClick s)) eqn:Hidle.
    + rewrite Hblock, He', andb_false_r, Hidle. reflexivity.
    + destruct (Rgtb (portfolio s) 0) eqn:Hpos.
      * cbn [showSettings showShop finished running initialClick portfolio
             createFloatingText setFloatingTexts setPortfolio setBalance].
        rewrite Hblock, He', andb_false_r, Hidle.
        rewrite (proj2 (Rgtb_false_iff 0 0)) by lra. reflexivity.
      * rewrite Hblock, He', andb_false_r, Hidle, Hpos. reflexivity.
Qed.

Lemma sell_is_idempotent_witness :
  rightHalf leftClick = false
  /\ handleClick leftClick (handleClick leftClick holding)
     = handleClick leftClick holding.
Proof.
  split; [exact rightHalf_leftClick|].
  exact (sell_is_idempotent leftClick leftClick holding
           rightHalf_leftClick rightHalf_leftClick).
Defined.

(** ** The size of the candle chart *)

(** X28. In every reachable state the candle chart holds between 1 and 60
    candles, a fifth of the number of prices rounded up. *)
Theorem candles_bounded (s : State) :
  reachable s ->
  (1 <= length (candles s) <= 60)%nat
  /\ length (candles s) = ((length (prices s) + 4) / 5)%nat.
Proof.
  intros Hreach.
  destruct (reachable_SessionInv s Hreach) as (_ & _ & _ & _ & _ & _ & Hl).
  unfold candles.
  destruct (buildCandles_from_count (prices s) 5 0 ltac:(lia)) as [Hcover Hstart].
  fold (buildCandles (prices s) 5) in Hcover, Hstart. simpl in Hcover, Hstart.
  set (m := length (buildCandles (prices s) 5)) in *.
  assert (Hm : (1 <= m <= 60)%nat).
  { split; [lia|].
    destruct (Nat.le_gt_cases m 60) as [Hle|Hgt]; [exact Hle|].
    specialize (Hstart 60%nat Hgt). lia. }
  split; [exact Hm|].
  destruct m as [|m]; [lia|].
  pose proof (Hstart m ltac:(lia)) as Hlast.
  apply Nat.div_unique with (r := (length (prices s) + 4 - 5 * S m)%nat); lia.
Qed.

Lemma candles_bounded_witness :
  reachable started /\ (1 <= length (candles started) <= 60)%nat.
Proof.
  split; [exact reachable_started|].
  exact (proj1 (candles_bounded started reachable_started)).
Defined.
